(** * RAPPOR client encoder (encoder.cc): shallow embedding and properties

    The embedding follows [src/encoder.cc] function by function.  C++ [int]
    values are integers of [Z]; [Bits] is a 32-bit unsigned integer held in
    [Z] with its conversions written out; [std::vector<uint8_t>] and
    [std::string] are lists of bytes; [float] is IEEE-754 binary32.  *)

From Stdlib Require Import ZArith QArith Qround Qpower Lia Bool String.
From Stdlib Require Import Strings.Byte.
From Stdlib Require Import Floats.SpecFloat.
From stdpp Require Import base list.

Local Open Scope Z_scope.

(** ** Behaviour the language leaves undefined

    A read past the end of a vector, a shift by 32 or more, a remainder by
    zero and a float-to-integer conversion whose value does not fit are not
    given a meaning by C++; a failed [assert] ends the process.  The
    embedding makes both explicit outcomes next to a normal return. *)

Inductive outcome (A : Type) : Type :=
| Defined (a : A)
| Aborted
| Undefined.
Arguments Defined {A} a.
Arguments Aborted {A}.
Arguments Undefined {A}.

#[global] Instance outcome_ret : MRet outcome := fun A a => Defined a.

#[global] Instance outcome_bind : MBind outcome := fun A B k m =>
  match m with
  | Defined a => k a
  | Aborted => Aborted
  | Undefined => Undefined
  end.

(** [for (int i = 0; i < n; ++i) body]: the loop state is threaded through
    [body]; [n <= 0] runs no iteration. *)
Fixpoint for_from {A : Type} (count : nat) (i : Z)
    (body : Z -> A -> outcome A) (a : A) : outcome A :=
  match count with
  | O => Defined a
  | S count' => a' ← body i a; for_from count' (i + 1) body a'
  end.

Definition for_loop {A : Type} (n : Z) (body : Z -> A -> outcome A) (a : A)
    : outcome A :=
  for_from (Z.to_nat n) 0 body a.

(** ** Machine integers *)

Definition uint8_val (b : byte) : Z := Z.of_N (Byte.to_N b).

(** Conversion to [unsigned char]: reduction modulo 256. *)
Definition to_uint8 (z : Z) : byte :=
  match Byte.of_N (Z.to_N (z mod 256)) with
  | Some b => b
  | None => x00
  end.

(** Modelled from the spec: the declaration of [Bits] (encoder.h is not among
    the sources): "a fixed-width unsigned integer" for widths up to 32, that
    is a 32-bit unsigned integer. *)
Definition Bits : Type := Z.
Definition Bits_width : Z := 32.

(** Conversion of an integer to [Bits] (reduction modulo 2^32). *)
Definition to_Bits (z : Z) : Bits := z mod 2 ^ Bits_width.

(** Conversion to [size_t] (64 bits). *)
Definition to_size_t (z : Z) : Z := z mod 2 ^ 64.

(** [~x] on [Bits]. *)
Definition Bits_not (x : Bits) : Bits := to_Bits (Z.lnot x).

(** [a << b] on [int]: defined for [0 <= b < 32]; the result is used only
    after conversion to [Bits], where [1 << 31] is bit 31. *)
Definition int_shl (a b : Z) : outcome Z :=
  if (0 <=? b) && (b <? 32) then Defined (Z.shiftl a b) else Undefined.

(** [a % b] on [int]: truncated remainder; undefined for [b = 0]. *)
Definition int_rem (a b : Z) : outcome Z :=
  if b =? 0 then Undefined else Defined (Z.rem a b).

(** [v[i]] on a vector. *)
Definition vec_at {A : Type} (v : list A) (i : Z) : outcome A :=
  if i <? 0 then Undefined
  else match v !! Z.to_nat i with
       | Some x => Defined x
       | None => Undefined
       end.

(** The byte [v[j]] as an integer ([0] past the end, where the code does
    not read). *)
Definition byte_at (v : list byte) (j : Z) : Z :=
  uint8_val (default x00 (v !! Z.to_nat j)).

(** ** binary32 floating point *)

Module Float32.

Definition prec : Z := 24.
Definition emax : Z := 128.

Definition float : Type := spec_float.

Definition valid (x : float) : bool := valid_binary prec emax x.

Definition zero : float := S754_zero false.
Definition one : float := S754_finite false 8388608 (-23).

(** Conversion of an [int] to [float] (round to nearest even). *)
Definition of_int (z : Z) : float := binary_normalize prec emax z 0 false.

Definition mul (x y : float) : float := SFmul prec emax x y.
Definition leb (x y : float) : bool := SFleb x y.
Definition ltb (x y : float) : bool := SFltb x y.

(** Truncation toward zero of a finite value. *)
Definition trunc (x : float) : option Z :=
  match x with
  | S754_zero _ => Some 0
  | S754_finite s m e =>
      let t := Z.shiftl (Z.pos m) e in
      Some (if s then - t else t)
  | S754_infinity _ | S754_nan => None
  end.

(** [static_cast<uint8_t>(x)]: the fractional part is discarded; undefined
    when the truncated value is not in [0, 255]. *)
Definition to_uint8_cast (x : float) : outcome Z :=
  match trunc x with
  | Some t => if (0 <=? t) && (t <=? 255) then Defined t else Undefined
  | None => Undefined
  end.

(** The real number a float stands for, when it stands for one. *)
Definition to_Q (x : float) : option Q :=
  match x with
  | S754_zero _ => Some 0%Q
  | S754_finite s m e =>
      let v := (inject_Z (Z.pos m) * Qpower 2 e)%Q in
      Some (if s then Qopp v else v)
  | S754_infinity _ | S754_nan => None
  end.

End Float32.

Abbreviation float := Float32.float.

(** ** Configuration *)

(** Modelled from the spec: the declaration of [Params] (encoder.h is not
    among the sources): bit width, hash count, cohort count, [prob_f],
    [prob_p], [prob_q]; the integer fields are [int], the others [float]. *)
Record Params : Type := mkParams {
  num_bits_ : Z;
  num_hashes_ : Z;
  num_cohorts_ : Z;
  prob_f_ : float;
  prob_p_ : float;
  prob_q_ : float
}.

(** The randomness source behind [deps_.irr_rand_] is an object outside the
    encoder; its state [R] is threaded through the calls.  [GetMask prob
    num_bits] returns [None] for [false], and the mask otherwise. *)
Class IrrRandInterface (R : Type) : Type :=
  GetMask : float -> Z -> R -> option Bits * R.

(** Modelled from the spec: the declaration of [Deps] (encoder.h is not among
    the sources): the cohort, the hash function, the client secret and the
    HMAC function.  The randomness source is the class above. *)
Record Deps : Type := mkDeps {
  cohort_ : Z;
  hash_func_ : list byte -> list byte;
  client_secret_ : list byte;
  hmac_func_ : list byte -> list byte -> list byte
}.

Record Encoder : Type := mkEncoder {
  encoder_id_ : list byte;
  params_ : Params;
  deps_ : Deps
}.

Definition kMaxBits : Z := 32.
Definition kMaxHashes : Z := 16.

(** What the constructor logs before [assert(false)]. *)
Inductive ConfigFault : Type :=
| NumBitsNotPositive
| NumHashesNotPositive
| NumCohortsNotPositive
| NumBitsTooLarge
| NumHashesTooLarge
| CohortTooLarge
| BadProbability (var_name : string).

(** A probability in the interval (0.0, 1.0]: the float stands for a real
    number of that interval. *)
Definition in_unit_interval (prob : float) : Prop :=
  exists q, Float32.to_Q prob = Some q /\ (0 < q)%Q /\ (q <= 1)%Q.

(** A probability the constructor is meant to refuse: a float other than
    NaN that is not in (0.0, 1.0]. *)
Definition out_of_range (prob : float) : Prop :=
  prob <> S754_nan /\ ~ in_unit_interval prob.

(** [CheckValidProbability]: the fault logged before [assert(false)], when
    the assertion fires. *)
Definition CheckValidProbability (prob : float) (var_name : string)
    : option ConfigFault :=
  if Float32.leb prob Float32.zero || Float32.ltb Float32.one prob
  then Some (BadProbability var_name)
  else None.

(** [Encoder::Encoder]: the first failed check aborts construction. *)
Definition Encoder_ctor (encoder_id : list byte) (params : Params) (deps : Deps)
    : ConfigFault + Encoder :=
  if num_bits_ params <=? 0 then inl NumBitsNotPositive
  else if num_hashes_ params <=? 0 then inl NumHashesNotPositive
  else if num_cohorts_ params <=? 0 then inl NumCohortsNotPositive
  else if num_bits_ params >? kMaxBits then inl NumBitsTooLarge
  else if num_hashes_ params >? kMaxHashes then inl NumHashesTooLarge
  else if cohort_ deps >=? num_cohorts_ params then inl CohortTooLarge
  else
    match CheckValidProbability (prob_f_ params) "prob_f" with
    | Some fault => inl fault
    | None =>
    match CheckValidProbability (prob_p_ params) "prob_p" with
    | Some fault => inl fault
    | None =>
    match CheckValidProbability (prob_q_ params) "prob_q" with
    | Some fault => inl fault
    | None => inr (mkEncoder encoder_id params deps)
    end end end.

(** An encoder that came out of the constructor. *)
Definition constructed (enc : Encoder) : Prop :=
  Encoder_ctor (encoder_id_ enc) (params_ enc) (deps_ enc) = inr enc.

(** ** Encoding *)

(** The hash input built at the start of [MakeBloomFilter]: a string of
    [4 + value.size()] zero bytes, its first four bytes assigned, then the
    value copied behind them.  Every index written is inside the string. *)
Definition hash_input (enc : Encoder) (value : list byte) : list byte :=
  let hash_input := replicate (4 + length value) x00 in
  let c := to_uint8 (Z.land (cohort_ (deps_ enc)) 255) in
  let hash_input := <[0%nat := x00]> hash_input in
  let hash_input := <[1%nat := x00]> hash_input in
  let hash_input := <[2%nat := x00]> hash_input in
  let hash_input := <[3%nat := c]> hash_input in
  foldl (fun hash_input i =>
           match value !! i with
           | Some b => <[(i + 4)%nat := b]> hash_input
           | None => hash_input
           end)
        hash_input (seq 0 (length value)).

(** The body of the loop of [MakeBloomFilter]: use a byte of the digest to
    determine which bit to set. *)
Definition bloom_body (hash_output : list byte) (num_bits : Z)
    (i : Z) (bloom : Bits) : outcome Bits :=
  byte ← vec_at hash_output i;
  bit_to_set ← int_rem (uint8_val byte) num_bits;
  one_shifted ← int_shl 1 bit_to_set;
  mret (Z.lor bloom (to_Bits one_shifted)).

(** [Encoder::MakeBloomFilter]: [Some bloom] for [true] with [*bloom_out]
    written, [None] for [false]. *)
Definition MakeBloomFilter (enc : Encoder) (value : list byte)
    : outcome (option Bits) :=
  let num_bits := num_bits_ (params_ enc) in
  let num_hashes := num_hashes_ (params_ enc) in
  let bloom : Bits := 0 in
  let hash_output := hash_func_ (deps_ enc) (hash_input enc value) in
  if Z.of_nat (length hash_output) <? to_size_t num_hashes then Defined None
  else
    bloom ← for_loop num_hashes (bloom_body hash_output num_bits) bloom;
    mret (Some bloom).

(** The body of the loop of [GetPrrMasks]: one digest byte gives one bit of
    each mask. *)
Definition prr_body (sha256 : list byte) (threshold128 : Z)
    (i : Z) (masks : Bits * Bits) : outcome (Bits * Bits) :=
  let (uniform, f_mask) := masks in
  byte ← vec_at sha256 i;
  let u_bit := Z.land (uint8_val byte) 1 in
  u_shifted ← int_shl u_bit i;
  let uniform := Z.lor uniform (to_Bits u_shifted) in
  let rand128 := Z.shiftr (uint8_val byte) 1 in
  let noise_bit := if rand128 <? threshold128 then 1 else 0 in
  noise_shifted ← int_shl noise_bit i;
  let f_mask := Z.lor f_mask (to_Bits noise_shifted) in
  mret (uniform, f_mask).

(** [Encoder::GetPrrMasks]: [Some (uniform, f_mask)] for [true], [None] for
    [false]. *)
Definition GetPrrMasks (enc : Encoder) (value : list byte)
    : outcome (option (Bits * Bits)) :=
  let sha256 := hmac_func_ (deps_ enc) (client_secret_ (deps_ enc)) value in
  if negb (Z.of_nat (length sha256) =? kMaxBits) then Defined None
  else if negb (num_bits_ (params_ enc) <=? kMaxBits) then Aborted
  else
    threshold128 ← Float32.to_uint8_cast
                     (Float32.mul (prob_f_ (params_ enc)) (Float32.of_int 128));
    masks ← for_loop (num_bits_ (params_ enc)) (prr_body sha256 threshold128)
                     (0, 0);
    mret (Some masks).

(** The two bits position [k] of the masks takes from the digest: the least
    significant bit of byte [k], and whether its other seven bits are below
    the threshold. *)
Definition uniform_bit (sha256 : list byte) (k : Z) : bool :=
  Z.testbit (byte_at sha256 k) 0.
Definition noise_bit (sha256 : list byte) (threshold128 : Z) (k : Z) : bool :=
  Z.shiftr (byte_at sha256 k) 1 <? threshold128.

(** What a call wrote through its output pointers: [None] leaves the
    caller's variable as it was. *)
Record Written : Type := mkWritten {
  bloom_out : option Bits;
  prr_out : option Bits;
  irr_out : option Bits
}.

Definition PrrCombine (bloom uniform f_mask : Bits) : Bits :=
  Z.lor (Z.land bloom (Bits_not f_mask)) (Z.land uniform f_mask).

Definition IrrCombine (prr p_bits q_bits : Bits) : Bits :=
  Z.lor (Z.land p_bits (Bits_not prr)) (Z.land q_bits prr).

(** [Encoder::_EncodeInternal]: the returned [bool], what was written, and
    the randomness source after the call. *)
Definition _EncodeInternal {R : Type} {irr_rand : IrrRandInterface R}
    (enc : Encoder) (value : list byte) (rand : R)
    : outcome (bool * Written * R) :=
  made ← MakeBloomFilter enc value;
  match made with
  | None => mret (false, mkWritten None None None, rand)
  | Some bloom =>
    masks ← GetPrrMasks enc value;
    match masks with
    | None => mret (false, mkWritten (Some bloom) None None, rand)
    | Some (uniform, f_mask) =>
      let prr := PrrCombine bloom uniform f_mask in
      match GetMask (prob_p_ (params_ enc)) (num_bits_ (params_ enc)) rand with
      | (None, rand1) =>
          mret (false, mkWritten (Some bloom) (Some prr) None, rand1)
      | (Some p_bits, rand1) =>
        match GetMask (prob_q_ (params_ enc)) (num_bits_ (params_ enc)) rand1 with
        | (None, rand2) =>
            mret (false, mkWritten (Some bloom) (Some prr) None, rand2)
        | (Some q_bits, rand2) =>
            let irr := IrrCombine prr p_bits q_bits in
            mret (true, mkWritten (Some bloom) (Some prr) (Some irr), rand2)
        end
      end
    end
  end.

(** [Encoder::Encode]: the Bloom filter and the PRR go to locals; only what
    was written to [irr_out] reaches the caller. *)
Definition Encode {R : Type} {irr_rand : IrrRandInterface R}
    (enc : Encoder) (value : list byte) (rand : R)
    : outcome (bool * option Bits * R) :=
  '(ok, written, rand') ← _EncodeInternal enc value rand;
  mret (ok, irr_out written, rand').

(** The PRR a call of [_EncodeInternal] wrote. *)
Definition written_prr {R : Type} (result : outcome (bool * Written * R))
    : outcome (option Bits) :=
  '(_, written, _) ← result; mret (prr_out written).

(** The PRR as a function of the parameters, the cohort, the secret, the
    value and the two injected functions, and of nothing else. *)
Definition Prr (params : Params) (cohort : Z) (hash : list byte -> list byte)
    (secret : list byte) (hmac : list byte -> list byte -> list byte)
    (value : list byte) : outcome (option Bits) :=
  let enc := mkEncoder [] params (mkDeps cohort hash secret hmac) in
  made ← MakeBloomFilter enc value;
  match made with
  | None => mret None
  | Some bloom =>
    masks ← GetPrrMasks enc value;
    match masks with
    | None => mret None
    | Some (uniform, f_mask) => mret (Some (PrrCombine bloom uniform f_mask))
    end
  end.

(** The same encoder bound to another cohort. *)
Definition with_cohort (enc : Encoder) (cohort : Z) : Encoder :=
  mkEncoder (encoder_id_ enc) (params_ enc)
            (mkDeps cohort (hash_func_ (deps_ enc)) (client_secret_ (deps_ enc))
                    (hmac_func_ (deps_ enc))).

(** The same encoder with another hash function injected. *)
Definition with_hash_func (enc : Encoder) (hash : list byte -> list byte)
    : Encoder :=
  mkEncoder (encoder_id_ enc) (params_ enc)
            (mkDeps (cohort_ (deps_ enc)) hash (client_secret_ (deps_ enc))
                    (hmac_func_ (deps_ enc))).

(** The 4-byte big-endian encoding of an integer. *)
Definition big_endian4 (z : Z) : list byte :=
  [to_uint8 (Z.shiftr z 24); to_uint8 (Z.shiftr z 16);
   to_uint8 (Z.shiftr z 8); to_uint8 z].

(** The same encoder with another HMAC function injected. *)
Definition with_hmac_func (enc : Encoder)
    (hmac : list byte -> list byte -> list byte) : Encoder :=
  mkEncoder (encoder_id_ enc) (params_ enc)
            (mkDeps (cohort_ (deps_ enc)) (hash_func_ (deps_ enc))
                    (client_secret_ (deps_ enc)) hmac).

(** The same encoder with another [prob_f]. *)
Definition with_prob_f (enc : Encoder) (prob_f : float) : Encoder :=
  mkEncoder (encoder_id_ enc)
            (mkParams (num_bits_ (params_ enc)) (num_hashes_ (params_ enc))
                      (num_cohorts_ (params_ enc)) prob_f
                      (prob_p_ (params_ enc)) (prob_q_ (params_ enc)))
            (deps_ enc).

(** The number of bits set among the positions below [n]. *)
Fixpoint popcount_below (n : nat) (x : Z) : nat :=
  match n with
  | O => O
  | S n' => (if Z.testbit x (Z.of_nat n') then 1 else 0) + popcount_below n' x
  end.

(** The number of bits set in a [Bits] value. *)
Definition popcount (x : Bits) : nat := popcount_below 32 x.

(** ** Debug output

    [PrintHex] writes to [stderr]; the stream is the list of the characters
    written so far. *)

(** One hexadecimal digit of [%x]: lower case. *)
Definition hex_digit (d : Z) : byte :=
  if d <? 10 then to_uint8 (48 + d) else to_uint8 (87 + d).

(** [fprintf(stderr, "%02x", b)] for a [uint8_t]: two digits, the first one
    a zero when the value is below 16. *)
Definition fprintf_02x (b : byte) (stderr : list byte) : list byte :=
  stderr ++ [hex_digit (uint8_val b / 16); hex_digit (uint8_val b mod 16)].

(** [PrintHex]. *)
Definition PrintHex (h : list byte) (stderr : list byte) : list byte :=
  let stderr :=
    foldl (fun stderr i =>
             match h !! i with
             | Some b => fprintf_02x b stderr
             | None => stderr
             end)
          stderr (seq 0 (length h)) in
  stderr ++ [x0a].

(** Reading a line of hexadecimal digits back. *)
Definition hex_value (c : byte) : option Z :=
  let v := uint8_val c in
  if (48 <=? v) && (v <=? 57) then Some (v - 48)
  else if (97 <=? v) && (v <=? 102) then Some (v - 87)
  else None.

Fixpoint parse_hex (line : list byte) : option (list byte) :=
  match line with
  | [] => Some []
  | high :: low :: rest =>
      match hex_value high, hex_value low, parse_hex rest with
      | Some a, Some b, Some bytes => Some (to_uint8 (16 * a + b) :: bytes)
      | _, _, _ => None
      end
  | _ => None
  end.

(** ** The byte layout of the unit test

    [expected_out] of the test [StringUint32AndStringVectorMatch]: the four
    bytes of a [Bits] value, most significant first. *)
Definition expected_out (bits_out : Bits) : list byte :=
  [to_uint8 (Z.shiftr (Z.land bits_out 4278190080) 24);
   to_uint8 (Z.shiftr (Z.land bits_out 16711680) 16);
   to_uint8 (Z.shiftr (Z.land bits_out 65280) 8);
   to_uint8 (Z.land bits_out 255)].

(** The number four bytes stand for, most significant first. *)
Definition bytes_to_bits (bytes : list byte) : Bits :=
  foldl (fun acc b => acc * 256 + uint8_val b) 0 bytes.

(** ** A test configuration

    The parameters of the unit tests (32 bits, 2 hashes, 128 cohorts,
    f = 0.25, p = 0.75, q = 0.5, secret "client-secret", cohort 3), with
    stand-ins for the injected functions: a hash that returns its input, a
    keyed digest of 32 bytes, and two randomness sources. *)

Module Demo.

Definition quarter : float := S754_finite false 8388608 (-25).
Definition half : float := S754_finite false 8388608 (-24).
Definition three_quarters : float := S754_finite false 12582912 (-24).

Definition params : Params := mkParams 32 2 128 quarter three_quarters half.

Definition hash (input : list byte) : list byte := input.

Definition hmac (secret value : list byte) : list byte :=
  map (fun i => to_uint8 (Z.of_nat (i * 37 + length secret + length value)))
      (seq 0 32).

Definition secret : list byte := list_byte_of_string "client-secret".
Definition foo : list byte := list_byte_of_string "foo".

Definition deps : Deps := mkDeps 3 hash secret hmac.

Definition encoder : Encoder :=
  mkEncoder (list_byte_of_string "metric-name") params deps.

(** A source that plays back a script of answers and fails at its end. *)
Definition scripted : IrrRandInterface (list (option Bits)) :=
  fun _ _ script =>
    match script with
    | [] => (None, [])
    | answer :: rest => (answer, rest)
    end.

(** A source that never fails: the mask is taken from a counter and cut
    to the width asked for. *)
Definition counting : IrrRandInterface nat :=
  fun _ num_bits n =>
    (Some (Z.land (Z.of_nat n * 2654435761) (Z.ones (Z.max 0 num_bits))),
     S n).

(** A configuration whose [prob_f] is not a number. *)
Definition nan_params : Params :=
  mkParams 32 2 128 S754_nan three_quarters half.

(** A configuration whose width is not a multiple of 8. *)
Definition narrow_params : Params :=
  mkParams 7 2 128 quarter three_quarters half.

(** Injected functions chosen to reproduce the vectors of the unit test
    (2281639167 for cohort 3, 2281637247 for cohort 4) from an all-zero
    [p_bits] and an all-one [q_bits]: the hash selects bits 7 and 11 for
    cohort 3 and bit 8 otherwise; the digest switches the noise off at
    positions 7, 8 and 11 and elsewhere carries the bits of 2281636991. *)
Definition vector_hash (input : list byte) : list byte :=
  match input !! 3%nat with
  | Some x03 => [x07; x0b]
  | _ => [x08; x08]
  end.

Definition vector_hmac (secret value : list byte) : list byte :=
  map (fun i : nat =>
         if (i =? 7)%nat || (i =? 8)%nat || (i =? 11)%nat then xfe
         else to_uint8 (Z.b2z (Z.testbit 2281636991 (Z.of_nat i))))
      (seq 0 32).

Definition vector_encoder (cohort : Z) : Encoder :=
  mkEncoder (list_byte_of_string "metric-name") params
            (mkDeps cohort vector_hash secret vector_hmac).

(** A configuration with more than 256 cohorts. *)
Definition wide_params : Params :=
  mkParams 32 2 257 quarter three_quarters half.
Definition wide_encoder : Encoder :=
  mkEncoder (list_byte_of_string "metric-name") wide_params
            (mkDeps 256 hash secret hmac).

(** A [prob_f] of 1/256, below the resolution of the threshold, and a
    [prob_f] of 1.0. *)
Definition faint : float := S754_finite false 8388608 (-31).
Definition faint_encoder : Encoder :=
  mkEncoder (list_byte_of_string "metric-name")
            (mkParams 32 2 128 faint three_quarters half) deps.
Definition sure_encoder : Encoder :=
  mkEncoder (list_byte_of_string "metric-name")
            (mkParams 32 2 128 Float32.one three_quarters half) deps.

(** An encoder of 8 bits. *)
Definition byte_encoder : Encoder :=
  mkEncoder (list_byte_of_string "metric-name")
            (mkParams 8 2 128 quarter three_quarters half) deps.

(** A hash that appends to its input, and a digest that differs from [hmac]
    from byte 8 on. *)
Definition long_hash (input : list byte) : list byte := input ++ [xff; xfe].
Definition other_hmac (secret value : list byte) : list byte :=
  take 8 (hmac secret value) ++ replicate 24 x55.


End Demo.

(** * Properties *)

Ltac zbool :=
  repeat match goal with
    | |- context [?a <=? ?b] => destruct (Z.leb_spec a b)
    | |- context [?a <? ?b] => destruct (Z.ltb_spec a b)
    | |- context [?a =? ?b] => destruct (Z.eqb_spec a b)
    end;
  cbn; try reflexivity; try lia.

(** ** Machine integers *)

Lemma uint8_val_range (b : byte) : 0 <= uint8_val b < 256.
Proof.
  unfold uint8_val. pose proof (Byte.to_N_bounded b) as Hb. lia.
Qed.

Lemma uint8_val_to_uint8 (z : Z) : uint8_val (to_uint8 z) = z mod 256.
Proof.
  unfold uint8_val, to_uint8.
  assert (Hr : 0 <= z mod 256 < 256) by (apply Z.mod_pos_bound; lia).
  destruct (Byte.of_N (Z.to_N (z mod 256))) as [b|] eqn:Hof.
  - apply Byte.to_of_N in Hof. rewrite Hof. lia.
  - apply Byte.of_N_None_iff in Hof. lia.
Qed.

Lemma to_uint8_uint8_val (b : byte) : to_uint8 (uint8_val b) = b.
Proof.
  unfold to_uint8. rewrite Z.mod_small by apply uint8_val_range.
  unfold uint8_val. rewrite N2Z.id, Byte.of_to_N. reflexivity.
Qed.

Lemma land_255 (z : Z) : Z.land z 255 = z mod 256.
Proof. change 255 with (Z.ones 8). rewrite Z.land_ones by lia. reflexivity. Qed.

Lemma to_Bits_pow2 (b : Z) : 0 <= b < 32 -> to_Bits (Z.shiftl 1 b) = 2 ^ b.
Proof.
  intros Hb. unfold to_Bits, Bits_width.
  rewrite Z.shiftl_1_l. apply Z.mod_small. split.
  - apply Z.pow_nonneg. lia.
  - apply Z.pow_lt_mono_r; lia.
Qed.

Lemma to_Bits_zero : to_Bits 0 = 0.
Proof. reflexivity. Qed.

Lemma Bits_not_testbit (x : Bits) (i : Z) :
  0 <= i < 32 -> Z.testbit (Bits_not x) i = negb (Z.testbit x i).
Proof.
  intros Hi. unfold Bits_not, to_Bits, Bits_width.
  rewrite Z.mod_pow2_bits_low by lia. apply Z.lnot_spec. lia.
Qed.

(** ** Loops *)

Lemma for_from_succ {A : Type} (count : nat) (i : Z)
    (body : Z -> A -> outcome A) (a : A) :
  for_from (S count) i body a = body i a ≫= for_from count (i + 1) body.
Proof. reflexivity. Qed.

Lemma byte_at_range (v : list byte) (j : Z) : 0 <= byte_at v j < 256.
Proof. apply uint8_val_range. Qed.

Lemma vec_at_in_range (v : list byte) (i : Z) :
  0 <= i < Z.of_nat (length v) ->
  exists b, vec_at v i = Defined b /\ v !! Z.to_nat i = Some b
            /\ uint8_val b = byte_at v i.
Proof.
  intros Hi. unfold vec_at, byte_at.
  destruct (Z.ltb_spec i 0) as [Hneg|_]; [lia|].
  destruct (v !! Z.to_nat i) as [b|] eqn:Hlk.
  - exists b. auto.
  - apply lookup_ge_None in Hlk. lia.
Qed.

Section BloomLoop.

Variable hash_output : list byte.
Variable num_bits : Z.
Hypothesis num_bits_range : 0 < num_bits <= 32.

Lemma bloom_body_step (i : Z) (bloom : Bits) :
  0 <= i < Z.of_nat (length hash_output) ->
  bloom_body hash_output num_bits i bloom
  = Defined (Z.lor bloom (2 ^ (byte_at hash_output i mod num_bits))).
Proof using num_bits_range.
  intros Hi. unfold bloom_body.
  destruct (vec_at_in_range hash_output i Hi) as (b & -> & _ & Hb).
  cbn. unfold int_rem.
  destruct (Z.eqb_spec num_bits 0) as [Hz|_]; [lia|]. cbn.
  pose proof (uint8_val_range b) as Hr.
  rewrite Z.rem_mod_nonneg by lia.
  pose proof (Z.mod_pos_bound (uint8_val b) num_bits ltac:(lia)) as Hm.
  unfold int_shl.
  destruct (Z.leb_spec 0 (uint8_val b mod num_bits)); [|lia].
  destruct (Z.ltb_spec (uint8_val b mod num_bits) 32); [|lia].
  cbn. rewrite to_Bits_pow2 by lia. rewrite Hb. reflexivity.
Qed.

Lemma bloom_loop_spec (count : nat) :
  forall (i : Z) (bloom : Bits),
    0 <= i -> i + Z.of_nat count <= Z.of_nat (length hash_output) ->
    exists bloom',
      for_from count i (bloom_body hash_output num_bits) bloom = Defined bloom' /\
      forall k, Z.testbit bloom' k = true <->
                Z.testbit bloom k = true \/
                exists j, i <= j < i + Z.of_nat count /\
                          byte_at hash_output j mod num_bits = k.
Proof using num_bits_range.
  induction count as [|count IH]; intros i bloom Hi Hlen.
  - exists bloom. split; [reflexivity|]. intros k. split; [auto|].
    intros [H|(j & Hj & _)]; [exact H|lia].
  - rewrite for_from_succ, bloom_body_step by lia. cbn.
    destruct (IH (i + 1) (Z.lor bloom (2 ^ (byte_at hash_output i mod num_bits))))
      as (bloom' & Hrun & Hbits); [lia|lia|].
    exists bloom'. split; [exact Hrun|]. intros k. rewrite Hbits.
    rewrite Z.lor_spec, orb_true_iff.
    pose proof (Z.mod_pos_bound (byte_at hash_output i) num_bits ltac:(lia)) as Hm.
    rewrite Z.pow2_bits_eqb by lia. rewrite Z.eqb_eq.
    split.
    + intros [[H|H]|(j & Hj & Hk)].
      * left; exact H.
      * right. exists i. split; [lia|]. exact H.
      * right. exists j. split; [lia|exact Hk].
    + intros [H|(j & Hj & Hk)].
      * left; left; exact H.
      * destruct (Z.eq_dec j i) as [->|Hne].
        -- left; right. exact Hk.
        -- right. exists j. split; [lia|exact Hk].
Qed.

End BloomLoop.

Lemma land_1_b2z (z : Z) : Z.land z 1 = Z.b2z (Z.testbit z 0).
Proof.
  change 1 with (Z.ones 1). rewrite Z.land_ones by lia.
  symmetry. apply Z.bit0_mod.
Qed.

Lemma shifted_flag_testbit (c : bool) (i k : Z) :
  0 <= i < 32 ->
  Z.testbit (to_Bits (Z.shiftl (Z.b2z c) i)) k = (k =? i) && c.
Proof.
  intros Hi. destruct c; cbn [Z.b2z].
  - rewrite to_Bits_pow2 by lia. rewrite Z.pow2_bits_eqb by lia.
    rewrite andb_true_r. apply Z.eqb_sym.
  - rewrite Z.shiftl_0_l, to_Bits_zero, Z.bits_0, andb_false_r. reflexivity.
Qed.

Section PrrLoop.

Variable sha256 : list byte.
Variable threshold128 : Z.

Lemma prr_body_step (i : Z) (uniform f_mask : Bits) :
  0 <= i < 32 -> i < Z.of_nat (length sha256) ->
  exists uniform' f_mask',
    prr_body sha256 threshold128 i (uniform, f_mask)
    = Defined (uniform', f_mask') /\
    forall k,
      Z.testbit uniform' k = Z.testbit uniform k || (k =? i) && uniform_bit sha256 k /\
      Z.testbit f_mask' k = Z.testbit f_mask k || (k =? i) && noise_bit sha256 threshold128 k.
Proof.
  intros Hi Hlen. unfold prr_body.
  destruct (vec_at_in_range sha256 i ltac:(lia)) as (b & -> & _ & Hb).
  cbn. unfold int_shl.
  destruct (Z.leb_spec 0 i); [|lia]. destruct (Z.ltb_spec i 32); [|lia].
  cbn. eexists _, _. split; [reflexivity|]. intros k.
  rewrite !Z.lor_spec, land_1_b2z.
  change (if Z.shiftr (uint8_val b) 1 <? threshold128 then 1 else 0)
    with (Z.b2z (Z.shiftr (uint8_val b) 1 <? threshold128)).
  rewrite !shifted_flag_testbit by lia.
  unfold uniform_bit, noise_bit.
  destruct (Z.eqb_spec k i) as [->|Hne]; [|rewrite !andb_false_l; auto].
  rewrite !andb_true_l, <- Hb. auto.
Qed.

Lemma prr_loop_spec (count : nat) :
  forall (i : Z) (uniform f_mask : Bits),
    0 <= i -> i + Z.of_nat count <= 32 ->
    i + Z.of_nat count <= Z.of_nat (length sha256) ->
    exists uniform' f_mask',
      for_from count i (prr_body sha256 threshold128) (uniform, f_mask)
      = Defined (uniform', f_mask') /\
      forall k,
        Z.testbit uniform' k
        = Z.testbit uniform k
          || (i <=? k) && (k <? i + Z.of_nat count) && uniform_bit sha256 k /\
        Z.testbit f_mask' k
        = Z.testbit f_mask k
          || (i <=? k) && (k <? i + Z.of_nat count) && noise_bit sha256 threshold128 k.
Proof.
  induction count as [|count IH]; intros i uniform f_mask Hi H32 Hlen.
  - exists uniform, f_mask. split; [reflexivity|]. intros k.
    replace ((i <=? k) && (k <? i + Z.of_nat 0)) with false by zbool.
    rewrite !orb_false_r. auto.
  - rewrite for_from_succ.
    destruct (prr_body_step i uniform f_mask) as (u1 & f1 & -> & H1);
      [lia|lia|].
    cbn. destruct (IH (i + 1) u1 f1) as (u2 & f2 & Hrun & H2); [lia..|].
    exists u2, f2. split; [exact Hrun|]. intros k.
    destruct (H1 k) as [Hu1 Hf1]. destruct (H2 k) as [Hu2 Hf2].
    rewrite Hu2, Hf2, Hu1, Hf1. clear Hu1 Hf1 Hu2 Hf2.
    destruct (Z.eqb_spec k i) as [Heq|Hne]; [subst k|].
    + replace (i + 1 <=? i) with false by zbool.
      replace (i <=? i) with true by zbool.
      replace (i <? i + Z.of_nat (S count)) with true by zbool.
      rewrite !andb_false_l, !andb_true_l, !orb_false_r. auto.
    + replace ((i <=? k) && (k <? i + Z.of_nat (S count)))
        with ((i + 1 <=? k) && (k <? i + 1 + Z.of_nat count)) by zbool.
      rewrite !andb_false_l, !orb_false_r. auto.
Qed.

End PrrLoop.

(** ** binary32 facts *)

Module Float32Facts.

Import Float32.

Lemma digits2_pos_bounds (m : positive) :
  2 ^ (Z.pos (digits2_pos m) - 1) <= Z.pos m < 2 ^ Z.pos (digits2_pos m).
Proof.
  induction m as [m IH|m IH|]; cbn [digits2_pos].
  - rewrite Pos2Z.inj_succ.
    replace (Z.succ (Z.pos (digits2_pos m)) - 1)
      with (Z.succ (Z.pos (digits2_pos m) - 1)) by lia.
    rewrite !Z.pow_succ_r by lia. lia.
  - rewrite Pos2Z.inj_succ.
    replace (Z.succ (Z.pos (digits2_pos m)) - 1)
      with (Z.succ (Z.pos (digits2_pos m) - 1)) by lia.
    rewrite !Z.pow_succ_r by lia. lia.
  - cbn. lia.
Qed.

(** A canonical mantissa has at most 24 digits, and exactly 24 above the
    smallest exponent. *)
Lemma bounded_digits (m : positive) (e : Z) :
  bounded prec emax m e = true ->
  Z.pos (digits2_pos m) <= 24 /\ -149 <= e <= 104 /\
  (-149 < e -> Z.pos (digits2_pos m) = 24).
Proof.
  unfold bounded, canonical_mantissa, fexp, emin, prec, emax.
  intros Hb. apply andb_true_iff in Hb. destruct Hb as [Hc Hb].
  apply Z.eqb_eq in Hc. apply Z.leb_le in Hb. lia.
Qed.

(** Multiplying by 128 only moves the exponent: the product is exact. *)
Lemma mul_128 (m : positive) (e : Z) :
  bounded prec emax m e = true -> e <= 90 ->
  exists m' e',
    mul (S754_finite false m e) (of_int 128) = S754_finite false m' e' /\
    Z.shiftl (Z.pos m') e' = Z.shiftl (Z.pos m) (e + 7).
Proof.
  intros Hb He.
  change (of_int 128) with (S754_finite false 8388608 (-16)).
  unfold mul, SFmul. rewrite Pos.mul_comm. cbn [xorb].
  let t := eval cbv [Pos.mul] in (8388608 * m)%positive in
  change (8388608 * m)%positive with t.
  apply bounded_digits in Hb.
  set (d := Z.pos (digits2_pos m)) in *.
  unfold binary_round_aux, shr_fexp.
  cbn [shr_record_of_loc Zdigits2 digits2_pos].
  rewrite !Pos2Z.inj_succ. fold d.
  unfold fexp, emin, prec, emax.
  set (n1 := Z.max _ _ - _).
  assert (Hn : n1 = 16 \/ n1 = 17 \/ n1 = 18 \/ n1 = 19 \/
               n1 = 20 \/ n1 = 21 \/ n1 = 22 \/ n1 = 23) by lia.
  destruct Hn as [Hn|[Hn|[Hn|[Hn|[Hn|[Hn|[Hn|Hn]]]]]]];
    assert (Hn' := Hn); unfold n1 in Hn'; clearbody n1; subst n1;
    cbn [shr SpecFloat.iter_pos shr_1 shr_m loc_of_shr_record
         round_nearest_even
         Zdigits2 digits2_pos orb];
    rewrite ?Pos2Z.inj_succ; fold d;
    match goal with |- context [shr _ ?e1 ?n] =>
      replace n with 0 by lia
    end;
    cbn [shr shr_m];
    match goal with |- context [?a <=? ?b] =>
      destruct (Z.leb_spec a b); [|lia]
    end;
    eexists _, _; (split; [reflexivity|]).
  all: match goal with |- Z.shiftl (Z.pos ?p) (_ + -16 + ?n) = _ =>
      let k := eval compute in (23 - n) in
      replace (Z.pos p) with (Z.shiftl (Z.pos m) k) by reflexivity;
      rewrite Z.shiftl_shiftl by lia; f_equal; lia
    end.
Qed.

(** Scaling by a power of two in the rationals. *)

Lemma Qpower2_nonneg (n : Z) : 0 <= n -> (2 ^ n == inject_Z (2 ^ n))%Q.
Proof. intros Hn. rewrite Zpower_Qpower by exact Hn. reflexivity. Qed.

Lemma inject_pow2_pos (n : Z) : 0 <= n -> (0 < inject_Z (2 ^ n))%Q.
Proof.
  intros Hn. change 0%Q with (inject_Z 0). rewrite <- Zlt_Qlt.
  apply Z.pow_pos_nonneg; lia.
Qed.

Lemma scale_nonpos (m e : Z) :
  e <= 0 -> (inject_Z m * 2 ^ e == inject_Z m / inject_Z (2 ^ (- e)))%Q.
Proof.
  intros He. replace e with (- - e) at 1 by lia.
  rewrite Qpower_opp, Qpower2_nonneg by lia. reflexivity.
Qed.

Lemma scale_nonneg (m e : Z) :
  0 <= e -> (inject_Z m * 2 ^ e == inject_Z (m * 2 ^ e))%Q.
Proof.
  intros He. rewrite inject_Z_mult, Qpower2_nonneg by lia. reflexivity.
Qed.

Lemma scale_pos (m : positive) (e : Z) : (0 < inject_Z (Z.pos m) * 2 ^ e)%Q.
Proof.
  apply Qmult_lt_0_compat; [|apply Qpower_0_lt; reflexivity].
  unfold Qlt. cbn. lia.
Qed.

Lemma scale_le_1 (m : positive) (e : Z) :
  (inject_Z (Z.pos m) * 2 ^ e <= 1)%Q <-> e <= 0 /\ Z.pos m <= 2 ^ (- e).
Proof.
  destruct (Z.leb_spec e 0) as [He|He].
  - rewrite scale_nonpos by exact He.
    pose proof (inject_pow2_pos (- e) ltac:(lia)) as Hp.
    split.
    + intros Hle. split; [exact He|].
      rewrite Zle_Qle.
      apply (Qmult_le_r _ _ (/ inject_Z (2 ^ (- e)))).
      * apply Qinv_lt_0_compat. exact Hp.
      * rewrite (Qmult_inv_r (inject_Z (2 ^ (- e)))).
        -- exact Hle.
        -- intros Hz. rewrite Hz in Hp. discriminate.
    + intros [_ Hle]. apply Qle_shift_div_r; [exact Hp|].
      rewrite Qmult_1_l, <- Zle_Qle. exact Hle.
  - rewrite scale_nonneg by lia. change 1%Q with (inject_Z 1).
    rewrite <- Zle_Qle.
    assert (2 ^ 1 <= 2 ^ e) by (apply Z.pow_le_mono_r; lia).
    split; [nia|lia].
Qed.

Lemma floor_scale_128 (m e : Z) :
  e + 7 <= 0 ->
  Qfloor (inject_Z m * 2 ^ e * 128) = Z.shiftl m (e + 7).
Proof.
  intros He.
  rewrite Z.shiftl_div_pow2 by exact He.
  rewrite Zdiv_Qdiv. apply Qfloor_comp.
  rewrite <- scale_nonpos by exact He.
  rewrite Qpower_plus by discriminate.
  rewrite Qmult_assoc. reflexivity.
Qed.

(** The two comparisons of [CheckValidProbability] on a finite float. *)
Lemma check_finite (s : bool) (m : positive) (e : Z) (var_name : string) :
  CheckValidProbability (S754_finite s m e) var_name = None <->
  s = false /\ (e < -23 \/ (e = -23 /\ Z.pos m <= 8388608)).
Proof.
  unfold CheckValidProbability, leb, ltb, SFleb, SFltb, zero, one.
  cbn [SFcompare]. destruct s; cbn [orb].
  - split; [discriminate|]. intros [Hs _]. discriminate.
  - destruct (Z.compare_spec (-23) e) as [He|He|He].
    + change (Pos.compare_cont Eq 8388608 m) with (Pos.compare 8388608 m).
      destruct (Pos.compare_spec 8388608 m) as [Hm|Hm|Hm].
      * split; [|reflexivity]. intros _. split; [reflexivity|lia].
      * split; [discriminate|]. intros [_ H]. lia.
      * split; [|reflexivity]. intros _. split; [reflexivity|lia].
    + split; [discriminate|]. intros [_ H]. lia.
    + split; [|reflexivity]. intros _. split; [reflexivity|lia].
Qed.

(** For a canonical float the comparison with [1.0f] is the comparison of
    the values. *)
Lemma canonical_le_1 (m : positive) (e : Z) :
  bounded prec emax m e = true ->
  (e < -23 \/ (e = -23 /\ Z.pos m <= 8388608)) <->
  (e <= 0 /\ Z.pos m <= 2 ^ (- e)).
Proof.
  intros Hb. apply bounded_digits in Hb. destruct Hb as (Hd & He & Hn).
  pose proof (digits2_pos_bounds m) as Hm.
  set (d := Z.pos (digits2_pos m)) in *.
  split.
  - intros [Hlt|[-> Hle]].
    + split; [lia|].
      assert (2 ^ d <= 2 ^ (- e)) by (apply Z.pow_le_mono_r; lia). lia.
    + split; [lia|]. exact Hle.
  - intros [He0 Hle].
    destruct (Z.ltb_spec e (-23)) as [Hlt|Hge]; [left; exact Hlt|right].
    rewrite (Hn ltac:(lia)) in Hm. change (2 ^ (24 - 1)) with 8388608 in Hm.
    assert (2 ^ (- e) <= 2 ^ 23) by (apply Z.pow_le_mono_r; lia).
    change (2 ^ 23) with 8388608 in *.
    assert (e = -23 \/ -23 < e) as [->|Hgt] by lia; [split; lia|].
    assert (2 ^ (- e) <= 2 ^ 22) by (apply Z.pow_le_mono_r; lia).
    change (2 ^ 22) with 4194304 in *. lia.
Qed.

(** [CheckValidProbability] lets through the floats of (0.0, 1.0], and
    the NaN. *)
Lemma CheckValidProbability_None (prob : float) (var_name : string) :
  valid prob = true ->
  CheckValidProbability prob var_name = None <->
  prob = S754_nan \/ in_unit_interval prob.
Proof.
  intros Hv. destruct prob as [s|s| |s m e].
  - split; [destruct s; discriminate|].
    intros [H|(q & Hq & Hpos & _)]; [discriminate|].
    injection Hq as <-. discriminate Hpos.
  - split; [destruct s; discriminate|].
    intros [H|(q & Hq & _)]; discriminate.
  - split; [left; reflexivity|reflexivity].
  - rewrite check_finite. cbn [valid valid_binary] in Hv.
    rewrite (canonical_le_1 m e Hv), <- scale_le_1.
    split.
    + intros [-> Hle]. right. eexists. split; [reflexivity|].
      split; [apply scale_pos|exact Hle].
    + intros [H|(q & Hq & Hpos & Hle)]; [discriminate|].
      cbn [to_Q] in Hq. injection Hq as <-.
      pose proof (scale_pos m e) as Hsc. destruct s.
      * exfalso. apply (Qlt_irrefl 0). eapply Qlt_trans; [exact Hpos|].
        apply (Qopp_lt_compat 0) in Hsc. exact Hsc.
      * split; [reflexivity|exact Hle].
Qed.

(** The threshold of [GetPrrMasks]: for a probability of (0.0, 1.0] the
    cast is defined and gives floor(prob * 128). *)
Lemma threshold128_floor (prob : float) (q : Q) :
  valid prob = true -> to_Q prob = Some q -> (0 < q)%Q -> (q <= 1)%Q ->
  to_uint8_cast (mul prob (of_int 128)) = Defined (Qfloor (q * 128)) /\
  0 <= Qfloor (q * 128) <= 128.
Proof.
  intros Hv Hq Hpos Hle.
  assert (Hin : in_unit_interval prob) by (exists q; auto).
  pose proof (proj2 (CheckValidProbability_None prob "prob_f" Hv)
                     (or_intror Hin)) as Hchk.
  destruct prob as [s|s| |s m e]; try discriminate Hq.
  - destruct s; discriminate Hchk.
  - apply check_finite in Hchk. destruct Hchk as [-> Hexp].
    cbn [to_Q] in Hq. injection Hq as <-.
    cbn [valid valid_binary] in Hv.
    apply (canonical_le_1 m e Hv) in Hexp as Hval.
    destruct (mul_128 m e Hv ltac:(lia)) as (m' & e' & -> & Hsh).
    rewrite floor_scale_128 by lia.
    unfold to_uint8_cast. cbn [trunc]. rewrite Hsh.
    assert (Hr : 0 <= Z.shiftl (Z.pos m) (e + 7) <= 128).
    { rewrite Z.shiftl_div_pow2 by lia.
      assert (Hp : 0 < 2 ^ (- (e + 7))) by (apply Z.pow_pos_nonneg; lia).
      split; [apply Z.div_pos; lia|].
      apply Z.div_le_upper_bound; [exact Hp|].
      replace (- e) with (- (e + 7) + 7) in Hval by lia.
      rewrite Z.pow_add_r in Hval by lia. change (2 ^ 7) with 128 in Hval.
      lia. }
    split; [|exact Hr].
    destruct (Z.leb_spec 0 (Z.shiftl (Z.pos m) (e + 7))); [|lia].
    destruct (Z.leb_spec (Z.shiftl (Z.pos m) (e + 7)) 255); [|lia].
    reflexivity.
Qed.

(** The thresholds of 0.25, 1.0 and 0.999 (0x3F7FBE77). *)
Lemma threshold128_examples :
  to_uint8_cast (mul (S754_finite false 8388608 (-25)) (of_int 128))
  = Defined 32 /\
  to_uint8_cast (mul one (of_int 128)) = Defined 128 /\
  to_uint8_cast (mul (S754_finite false 16760439 (-24)) (of_int 128))
  = Defined 127 /\
  of_int 1 = one /\ valid one = true.
Proof. repeat split; reflexivity. Qed.

End Float32Facts.

(** ** The constructor *)

Lemma Encoder_ctor_inr (encoder_id : list byte) (params : Params) (deps : Deps)
    (enc : Encoder) :
  Encoder_ctor encoder_id params deps = inr enc <->
  enc = mkEncoder encoder_id params deps /\
  0 < num_bits_ params <= 32 /\ 0 < num_hashes_ params <= 16 /\
  0 < num_cohorts_ params /\ cohort_ deps < num_cohorts_ params /\
  CheckValidProbability (prob_f_ params) "prob_f" = None /\
  CheckValidProbability (prob_p_ params) "prob_p" = None /\
  CheckValidProbability (prob_q_ params) "prob_q" = None.
Proof.
  unfold Encoder_ctor, kMaxBits, kMaxHashes.
  destruct (Z.leb_spec (num_bits_ params) 0);
    [split; [discriminate|intros (_ & ? & _); lia]|].
  destruct (Z.leb_spec (num_hashes_ params) 0);
    [split; [discriminate|intros (_ & _ & ? & _); lia]|].
  destruct (Z.leb_spec (num_cohorts_ params) 0);
    [split; [discriminate|intros (_ & _ & _ & ? & _); lia]|].
  destruct (Z.gtb_spec (num_bits_ params) 32);
    [split; [discriminate|intros (_ & ? & _); lia]|].
  destruct (Z.gtb_spec (num_hashes_ params) 16);
    [split; [discriminate|intros (_ & _ & ? & _); lia]|].
  destruct (Z.geb_spec (cohort_ deps) (num_cohorts_ params));
    [split; [discriminate|intros (_ & _ & _ & _ & ? & _); lia]|].
  destruct (CheckValidProbability (prob_f_ params) "prob_f");
    [split; [discriminate|intros (_ & _ & _ & _ & _ & ? & _); discriminate]|].
  destruct (CheckValidProbability (prob_p_ params) "prob_p");
    [split; [discriminate|intros (_ & _ & _ & _ & _ & _ & ? & _); discriminate]|].
  destruct (CheckValidProbability (prob_q_ params) "prob_q");
    [split; [discriminate|intros (_ & _ & _ & _ & _ & _ & _ & ?); discriminate]|].
  split.
  - intros [= <-]. repeat split; lia.
  - intros (-> & _). reflexivity.
Qed.

Lemma constructed_inv (enc : Encoder) :
  constructed enc ->
  0 < num_bits_ (params_ enc) <= 32 /\ 0 < num_hashes_ (params_ enc) <= 16 /\
  0 < num_cohorts_ (params_ enc) /\
  cohort_ (deps_ enc) < num_cohorts_ (params_ enc) /\
  CheckValidProbability (prob_f_ (params_ enc)) "prob_f" = None /\
  CheckValidProbability (prob_p_ (params_ enc)) "prob_p" = None /\
  CheckValidProbability (prob_q_ (params_ enc)) "prob_q" = None.
Proof. intros H. apply Encoder_ctor_inr in H. tauto. Qed.

(** ** The Bloom filter *)

Lemma MakeBloomFilter_short (enc : Encoder) (value : list byte) :
  constructed enc ->
  Z.of_nat (length (hash_func_ (deps_ enc) (hash_input enc value)))
    < num_hashes_ (params_ enc) ->
  MakeBloomFilter enc value = Defined None.
Proof.
  intros Hc Hlen. apply constructed_inv in Hc. destruct Hc as (_ & Hh & _).
  unfold MakeBloomFilter, to_size_t.
  rewrite (Z.mod_small (num_hashes_ (params_ enc))) by lia.
  destruct (Z.ltb_spec
              (Z.of_nat (length (hash_func_ (deps_ enc) (hash_input enc value))))
              (num_hashes_ (params_ enc))); [reflexivity|lia].
Qed.

Lemma MakeBloomFilter_enough (enc : Encoder) (value : list byte) :
  constructed enc ->
  num_hashes_ (params_ enc)
    <= Z.of_nat (length (hash_func_ (deps_ enc) (hash_input enc value))) ->
  exists bloom,
    MakeBloomFilter enc value = Defined (Some bloom) /\
    forall i, Z.testbit bloom i = true <->
              exists j, 0 <= j < num_hashes_ (params_ enc) /\
                        byte_at (hash_func_ (deps_ enc) (hash_input enc value)) j
                          mod num_bits_ (params_ enc) = i.
Proof.
  intros Hc Hlen. apply constructed_inv in Hc. destruct Hc as (Hb & Hh & _).
  unfold MakeBloomFilter, to_size_t.
  rewrite (Z.mod_small (num_hashes_ (params_ enc))) by lia.
  set (hash_output := hash_func_ (deps_ enc) (hash_input enc value)) in *.
  destruct (Z.ltb_spec (Z.of_nat (length hash_output))
              (num_hashes_ (params_ enc))); [lia|].
  unfold for_loop.
  destruct (bloom_loop_spec hash_output (num_bits_ (params_ enc)) Hb
              (Z.to_nat (num_hashes_ (params_ enc))) 0 0)
    as (bloom & Hrun & Hbits); [lia|lia|].
  exists bloom. rewrite Hrun. split; [reflexivity|].
  intros i. rewrite Hbits, Z.bits_0.
  rewrite Z2Nat.id by lia.
  split.
  - intros [H0|H1]; [discriminate|exact H1].
  - intros H1. right. exact H1.
Qed.

(** ** The PRR masks *)

Lemma GetPrrMasks_bad_length (enc : Encoder) (value : list byte) :
  length (hmac_func_ (deps_ enc) (client_secret_ (deps_ enc)) value) <> 32%nat ->
  GetPrrMasks enc value = Defined None.
Proof.
  intros Hlen. unfold GetPrrMasks, kMaxBits.
  destruct (Z.eqb_spec
              (Z.of_nat (length (hmac_func_ (deps_ enc)
                                   (client_secret_ (deps_ enc)) value))) 32);
    [lia|reflexivity].
Qed.

Lemma GetPrrMasks_run (enc : Encoder) (value : list byte) (threshold128 : Z) :
  constructed enc ->
  length (hmac_func_ (deps_ enc) (client_secret_ (deps_ enc)) value) = 32%nat ->
  Float32.to_uint8_cast
    (Float32.mul (prob_f_ (params_ enc)) (Float32.of_int 128))
  = Defined threshold128 ->
  exists uniform f_mask,
    GetPrrMasks enc value = Defined (Some (uniform, f_mask)) /\
    forall k,
      Z.testbit uniform k
      = (0 <=? k) && (k <? num_bits_ (params_ enc))
        && uniform_bit (hmac_func_ (deps_ enc) (client_secret_ (deps_ enc)) value) k
      /\
      Z.testbit f_mask k
      = (0 <=? k) && (k <? num_bits_ (params_ enc))
        && noise_bit (hmac_func_ (deps_ enc) (client_secret_ (deps_ enc)) value)
             threshold128 k.
Proof.
  intros Hc Hlen Hth. apply constructed_inv in Hc. destruct Hc as (Hb & _).
  unfold GetPrrMasks, kMaxBits. rewrite Hth.
  set (sha256 := hmac_func_ (deps_ enc) (client_secret_ (deps_ enc)) value) in *.
  destruct (Z.eqb_spec (Z.of_nat (length sha256)) 32) as [_|Hne]; [|lia].
  destruct (Z.leb_spec (num_bits_ (params_ enc)) 32); [|lia].
  cbn [negb mbind outcome_bind]. unfold for_loop.
  destruct (prr_loop_spec sha256 threshold128
              (Z.to_nat (num_bits_ (params_ enc))) 0 0 0)
    as (uniform & f_mask & Hrun & Hbits); [lia..|].
  exists uniform, f_mask.
  split; [exact (f_equal (fun o => masks ← o; mret (Some masks)) Hrun)|].
  intros k. destruct (Hbits k) as [Hu Hf].
  rewrite Hu, Hf, !Z.bits_0, !orb_false_l.
  rewrite Z2Nat.id by lia. rewrite Z.add_0_l. auto.
Qed.

Lemma GetPrrMasks_inv (enc : Encoder) (value : list byte)
    (uniform f_mask : Bits) :
  constructed enc ->
  GetPrrMasks enc value = Defined (Some (uniform, f_mask)) ->
  forall k,
    (Z.testbit uniform k = true -> 0 <= k < num_bits_ (params_ enc)) /\
    (Z.testbit f_mask k = true -> 0 <= k < num_bits_ (params_ enc)).
Proof.
  intros Hc Hrun k.
  destruct (Nat.eq_dec
              (length (hmac_func_ (deps_ enc) (client_secret_ (deps_ enc)) value))
              32%nat) as [Hlen|Hlen].
  - destruct (Float32.to_uint8_cast
                (Float32.mul (prob_f_ (params_ enc)) (Float32.of_int 128)))
      as [t| |] eqn:Hth.
    + destruct (GetPrrMasks_run enc value t Hc Hlen Hth)
        as (u & f & Hrun' & Hbits).
      rewrite Hrun in Hrun'. injection Hrun' as <- <-.
      destruct (Hbits k) as [-> ->].
      split; intros H; apply andb_true_iff in H; destruct H as [H _];
        apply andb_true_iff in H; lia.
    + exfalso. revert Hrun. unfold GetPrrMasks. rewrite Hth.
      repeat destruct (negb _); discriminate.
    + exfalso. revert Hrun. unfold GetPrrMasks. rewrite Hth.
      repeat destruct (negb _); discriminate.
  - rewrite (GetPrrMasks_bad_length enc value Hlen) in Hrun. discriminate.
Qed.

(** A float that stands for a real number has passed the constructor only
    if that number is in (0.0, 1.0]. *)
Lemma constructed_prob_f (enc : Encoder) (q : Q) :
  constructed enc ->
  Float32.valid (prob_f_ (params_ enc)) = true ->
  Float32.to_Q (prob_f_ (params_ enc)) = Some q ->
  (0 < q)%Q /\ (q <= 1)%Q.
Proof.
  intros Hc Hv Hq. apply constructed_inv in Hc.
  destruct Hc as (_ & _ & _ & _ & Hf & _).
  apply (Float32Facts.CheckValidProbability_None _ _ Hv) in Hf.
  destruct Hf as [Hnan|(q' & Hq' & Hr)].
  - rewrite Hnan in Hq. discriminate.
  - rewrite Hq in Hq'. injection Hq' as <-. exact Hr.
Qed.

Lemma GetPrrMasks_ok (enc : Encoder) (value : list byte) (q : Q) :
  constructed enc ->
  Float32.valid (prob_f_ (params_ enc)) = true ->
  Float32.to_Q (prob_f_ (params_ enc)) = Some q ->
  length (hmac_func_ (deps_ enc) (client_secret_ (deps_ enc)) value) = 32%nat ->
  exists uniform f_mask,
    GetPrrMasks enc value = Defined (Some (uniform, f_mask)) /\
    forall k,
      Z.testbit uniform k
      = (0 <=? k) && (k <? num_bits_ (params_ enc))
        && uniform_bit (hmac_func_ (deps_ enc) (client_secret_ (deps_ enc)) value) k
      /\
      Z.testbit f_mask k
      = (0 <=? k) && (k <? num_bits_ (params_ enc))
        && noise_bit (hmac_func_ (deps_ enc) (client_secret_ (deps_ enc)) value)
             (Qfloor (q * 128)) k.
Proof.
  intros Hc Hv Hq Hlen.
  destruct (constructed_prob_f enc q Hc Hv Hq) as [Hpos Hle].
  destruct (Float32Facts.threshold128_floor _ q Hv Hq Hpos Hle) as [Hth _].
  exact (GetPrrMasks_run enc value _ Hc Hlen Hth).
Qed.

(** ** The hash input *)

Lemma copy_value_spec (value : list byte) :
  forall (n : nat) (prefix rest : list byte),
    length prefix = 4%nat -> length rest = length value -> (n <= length value)%nat ->
    foldl (fun hash_input i =>
             match value !! i with
             | Some b => <[(i + 4)%nat := b]> hash_input
             | None => hash_input
             end)
          (prefix ++ rest) (seq 0 n)
    = prefix ++ take n value ++ drop n rest.
Proof.
  induction n as [|n IH]; intros prefix rest Hp Hr Hn.
  - cbn. rewrite drop_0. reflexivity.
  - rewrite seq_S, foldl_app, IH by lia. cbn [foldl Nat.add].
    destruct (value !! n) as [b|] eqn:Hb;
      [|apply lookup_ge_None in Hb; lia].
    rewrite (take_S_r _ _ _ Hb).
    replace (n + 4)%nat with (length prefix + n)%nat by lia.
    rewrite insert_app_r.
    replace n with (length (take n value) + 0)%nat at 1
      by (rewrite length_take; lia).
    rewrite insert_app_r.
    destruct (drop n rest) as [|x rest'] eqn:Hd.
    { apply (f_equal length) in Hd. rewrite length_drop in Hd. cbn in Hd. lia. }
    cbn [insert list_insert].
    replace (S n) with (n + 1)%nat by lia.
    rewrite <- drop_drop, Hd. cbn [drop].
    rewrite <- !app_assoc. reflexivity.
Qed.

Lemma hash_input_eq (enc : Encoder) (value : list byte) :
  hash_input enc value
  = [x00; x00; x00; to_uint8 (Z.land (cohort_ (deps_ enc)) 255)] ++ value.
Proof.
  unfold hash_input. cbn [Nat.add replicate insert list_insert].
  set (c := to_uint8 (Z.land (cohort_ (deps_ enc)) 255)).
  change (x00 :: x00 :: x00 :: c :: replicate (length value) x00)
    with ([x00; x00; x00; c] ++ replicate (length value) x00).
  rewrite copy_value_spec.
  - rewrite firstn_all, drop_ge, app_nil_r; [reflexivity|].
    rewrite length_replicate. lia.
  - reflexivity.
  - apply length_replicate.
  - lia.
Qed.

Lemma big_endian4_small (c : Z) :
  0 <= c < 256 -> big_endian4 c = [x00; x00; x00; to_uint8 (Z.land c 255)].
Proof.
  intros Hc. unfold big_endian4.
  rewrite land_255, (Z.mod_small c 256) by lia.
  rewrite !Z.shiftr_div_pow2 by lia.
  rewrite !Z.div_small; [reflexivity|..].
  - change (2 ^ 8) with 256. lia.
  - change (2 ^ 16) with 65536. lia.
  - change (2 ^ 24) with 16777216. lia.
Qed.

(** ** Whole calls *)

Lemma _EncodeInternal_prr (R : Type) (irr_rand : IrrRandInterface R)
    (enc : Encoder) (value : list byte) (rand : R) :
  written_prr (_EncodeInternal enc value rand)
  = Prr (params_ enc) (cohort_ (deps_ enc)) (hash_func_ (deps_ enc))
        (client_secret_ (deps_ enc)) (hmac_func_ (deps_ enc)) value.
Proof.
  destruct enc as [encoder_id params [cohort hash secret hmac]].
  unfold written_prr, Prr, _EncodeInternal. cbn [params_ deps_ cohort_
    hash_func_ client_secret_ hmac_func_].
  change (MakeBloomFilter (mkEncoder encoder_id params
                             (mkDeps cohort hash secret hmac)) value)
    with (MakeBloomFilter (mkEncoder [] params
                             (mkDeps cohort hash secret hmac)) value).
  change (GetPrrMasks (mkEncoder encoder_id params
                         (mkDeps cohort hash secret hmac)) value)
    with (GetPrrMasks (mkEncoder [] params
                         (mkDeps cohort hash secret hmac)) value).
  destruct (MakeBloomFilter _ value) as [[bloom|]| |]; try reflexivity.
  cbn [mbind outcome_bind].
  destruct (GetPrrMasks _ value) as [[[uniform f_mask]|]| |]; try reflexivity.
  cbn [mbind outcome_bind].
  destruct (GetMask (prob_p_ params) (num_bits_ params) rand)
    as [[p_bits|] rand1]; [|reflexivity].
  destruct (GetMask (prob_q_ params) (num_bits_ params) rand1)
    as [[q_bits|] rand2]; reflexivity.
Qed.

(** What [Encode] returns on a constructed encoder whose [prob_f] is a
    number: it always returns, and fails in exactly four cases. *)
Lemma Encode_cases (R : Type) (irr_rand : IrrRandInterface R)
    (enc : Encoder) (value : list byte) (rand : R) (q : Q) :
  constructed enc ->
  Float32.valid (prob_f_ (params_ enc)) = true ->
  Float32.to_Q (prob_f_ (params_ enc)) = Some q ->
  exists ok out rand',
    Encode enc value rand = Defined (ok, out, rand') /\
    (ok = false <->
     Z.of_nat (length (hash_func_ (deps_ enc) (hash_input enc value)))
       < num_hashes_ (params_ enc) \/
     length (hmac_func_ (deps_ enc) (client_secret_ (deps_ enc)) value)
       <> 32%nat \/
     (GetMask (prob_p_ (params_ enc)) (num_bits_ (params_ enc)) rand).1
       = None \/
     (GetMask (prob_q_ (params_ enc)) (num_bits_ (params_ enc))
        (GetMask (prob_p_ (params_ enc)) (num_bits_ (params_ enc)) rand).2).1
       = None) /\
    (ok = false -> out = None) /\
    (ok = true -> exists irr, out = Some irr).
Proof.
  intros Hc Hv Hq. unfold Encode, _EncodeInternal.
  destruct (Z.lt_ge_cases
              (Z.of_nat (length (hash_func_ (deps_ enc) (hash_input enc value))))
              (num_hashes_ (params_ enc))) as [Hshort|Henough].
  { rewrite (MakeBloomFilter_short enc value Hc Hshort).
    eexists _, _, _. split; [reflexivity|].
    split; [tauto|]. split; [reflexivity|discriminate]. }
  destruct (MakeBloomFilter_enough enc value Hc Henough) as (bloom & -> & _).
  cbn [mbind outcome_bind].
  destruct (Nat.eq_dec
              (length (hmac_func_ (deps_ enc) (client_secret_ (deps_ enc)) value))
              32%nat) as [Hlen|Hlen].
  2:{ rewrite (GetPrrMasks_bad_length enc value Hlen).
      eexists _, _, _. split; [reflexivity|].
      split; [tauto|]. split; [reflexivity|discriminate]. }
  destruct (GetPrrMasks_ok enc value q Hc Hv Hq Hlen)
    as (uniform & f_mask & -> & _).
  cbn [mbind outcome_bind].
  destruct (GetMask (prob_p_ (params_ enc)) (num_bits_ (params_ enc)) rand)
    as [[p_bits|] rand1]; cbn [fst snd].
  2:{ eexists _, _, _. split; [reflexivity|].
      split; [tauto|]. split; [reflexivity|discriminate]. }
  destruct (GetMask (prob_q_ (params_ enc)) (num_bits_ (params_ enc)) rand1)
    as [[q_bits|] rand2]; cbn [fst snd].
  2:{ eexists _, _, _. split; [reflexivity|].
      split; [tauto|]. split; [reflexivity|discriminate]. }
  eexists _, _, _. split; [reflexivity|]. split; [|split].
  - split; [discriminate|]. intros [H|[H|[H|H]]]; [lia|contradiction|..];
      discriminate H.
  - discriminate.
  - intros _. eexists. reflexivity.
Qed.

Lemma MakeBloomFilter_inv (enc : Encoder) (value : list byte) (bloom : Bits) :
  constructed enc ->
  MakeBloomFilter enc value = Defined (Some bloom) ->
  forall k, Z.testbit bloom k = true -> 0 <= k < num_bits_ (params_ enc).
Proof.
  intros Hc Hrun k Hk.
  destruct (Z.lt_ge_cases
              (Z.of_nat (length (hash_func_ (deps_ enc) (hash_input enc value))))
              (num_hashes_ (params_ enc))) as [Hshort|Henough].
  - rewrite (MakeBloomFilter_short enc value Hc Hshort) in Hrun. discriminate.
  - destruct (MakeBloomFilter_enough enc value Hc Henough)
      as (bloom' & Hrun' & Hbits).
    rewrite Hrun in Hrun'. injection Hrun' as <-.
    apply Hbits in Hk. destruct Hk as (j & _ & <-).
    apply constructed_inv in Hc. apply Z.mod_pos_bound. lia.
Qed.

Lemma not_true_false (b : bool) : (b = true -> False) -> b = false.
Proof. destruct b; [intros H; destruct (H eq_refl)|reflexivity]. Qed.

Lemma counting_width (prob : float) (k : Z) (s : nat) (m : Bits) (s' : nat) :
  Demo.counting prob k s = (Some m, s') ->
  forall i, k <= i -> Z.testbit m i = false.
Proof.
  unfold Demo.counting. intros [= <- _] i Hi.
  destruct (Z.ltb_spec i 0) as [Hneg|Hpos]; [apply Z.testbit_neg_r; exact Hneg|].
  rewrite Z.land_spec, Z.ones_spec_high by lia. apply andb_false_r.
Qed.

(** With an all-zero [p_bits] and an all-one [q_bits] the IRR is the PRR. *)
Lemma IrrCombine_zero_ones (prr : Bits) :
  0 <= prr < 2 ^ 32 -> IrrCombine prr 0 (2 ^ 32 - 1) = prr.
Proof.
  intros Hr. unfold IrrCombine. rewrite Z.land_0_l, Z.lor_0_l.
  change (2 ^ 32 - 1) with (Z.ones 32).
  rewrite Z.land_comm, Z.land_ones by lia. apply Z.mod_small. exact Hr.
Qed.

(** The vectors of the unit test are a matter of the injected functions:
    with the same parameters, secret, value and randomness, one choice of
    hash and HMAC yields them and another does not. *)
Lemma test_vectors_follow_injected_functions :
  Encode (irr_rand := Demo.scripted) (Demo.vector_encoder 3) Demo.foo
    [Some 0; Some 4294967295]
  = Defined (true, Some 2281639167, []) /\
  Encode (irr_rand := Demo.scripted) (Demo.vector_encoder 4) Demo.foo
    [Some 0; Some 4294967295]
  = Defined (true, Some 2281637247, []) /\
  Encode (irr_rand := Demo.scripted) Demo.encoder Demo.foo
    [Some 0; Some 4294967295]
  = Defined (true, Some 2130050, []).
Proof. repeat split; vm_compute; reflexivity. Qed.

(** ** Construction-time validation *)

Lemma CheckValidProbability_Some (prob : float) (var_name : string) :
  Float32.valid prob = true ->
  CheckValidProbability prob var_name = Some (BadProbability var_name) <->
  out_of_range prob.
Proof.
  intros Hv. unfold out_of_range.
  pose proof (Float32Facts.CheckValidProbability_None prob var_name Hv) as Hf.
  unfold CheckValidProbability in *.
  destruct (Float32.leb prob Float32.zero || Float32.ltb Float32.one prob).
  - split; [intros _|reflexivity].
    split; intros H;
      assert (Some (BadProbability var_name) = None) by (apply Hf; auto);
      discriminate.
  - split; [discriminate|]. intros [Hnan Hout].
    destruct (proj1 Hf eq_refl) as [H|H]; contradiction.
Qed.

(** The constructor faults exactly on an integer parameter out of its range
    or on a probability that is a float other than NaN outside (0.0, 1.0]. *)
Lemma Encoder_ctor_fault_iff (encoder_id : list byte) (params : Params)
    (deps : Deps) :
  Float32.valid (prob_f_ params) = true ->
  Float32.valid (prob_p_ params) = true ->
  Float32.valid (prob_q_ params) = true ->
  (exists fault, Encoder_ctor encoder_id params deps = inl fault) <->
  ~ 0 < num_bits_ params <= 32 \/ ~ 0 < num_hashes_ params <= 16 \/
  num_cohorts_ params <= 0 \/ cohort_ deps >= num_cohorts_ params \/
  out_of_range (prob_f_ params) \/ out_of_range (prob_p_ params) \/
  out_of_range (prob_q_ params).
Proof.
  intros Hf Hp Hq.
  rewrite <- (CheckValidProbability_Some (prob_f_ params) "prob_f" Hf).
  rewrite <- (CheckValidProbability_Some (prob_p_ params) "prob_p" Hp).
  rewrite <- (CheckValidProbability_Some (prob_q_ params) "prob_q" Hq).
  unfold Encoder_ctor, kMaxBits, kMaxHashes, CheckValidProbability.
  destruct (Z.leb_spec (num_bits_ params) 0);
    [split; [intros _; left; lia|eauto]|].
  destruct (Z.leb_spec (num_hashes_ params) 0);
    [split; [intros _; right; left; lia|eauto]|].
  destruct (Z.leb_spec (num_cohorts_ params) 0);
    [split; [intros _; right; right; left; lia|eauto]|].
  destruct (Z.gtb_spec (num_bits_ params) 32);
    [split; [intros _; left; lia|eauto]|].
  destruct (Z.gtb_spec (num_hashes_ params) 16);
    [split; [intros _; right; left; lia|eauto]|].
  destruct (Z.geb_spec (cohort_ deps) (num_cohorts_ params));
    [split; [intros _; right; right; right; left; lia|eauto]|].
  destruct (Float32.leb (prob_f_ params) _ || _);
    [split; [intros _; tauto|eauto]|].
  destruct (Float32.leb (prob_p_ params) _ || _);
    [split; [intros _; tauto|eauto]|].
  destruct (Float32.leb (prob_q_ params) _ || _);
    [split; [intros _; tauto|eauto]|].
  split.
  - intros [fault Hfault]. discriminate Hfault.
  - intros [Hd|[Hd|[Hd|[Hd|[Hd|[Hd|Hd]]]]]]; try lia; discriminate Hd.
Qed.

(** Each probability check refuses 0.0 and every number above 1.0, and
    lets 1.0 through; a width that is not a multiple of 8 is accepted. *)
Lemma CheckValidProbability_bounds (var_name : string) :
  CheckValidProbability Float32.zero var_name
  = Some (BadProbability var_name) /\
  CheckValidProbability Float32.one var_name = None /\
  (forall prob q,
      Float32.valid prob = true -> Float32.to_Q prob = Some q ->
      (1 < q)%Q ->
      CheckValidProbability prob var_name = Some (BadProbability var_name)) /\
  Encoder_ctor [] Demo.narrow_params Demo.deps
  = inr (mkEncoder [] Demo.narrow_params Demo.deps).
Proof.
  split; [reflexivity|]. split; [reflexivity|]. split; [|reflexivity].
  intros prob q Hv Hq Hgt. apply (CheckValidProbability_Some prob _ Hv).
  split.
  - intros ->. discriminate Hq.
  - intros (q' & Hq' & _ & Hle). rewrite Hq in Hq'. injection Hq' as <-.
    apply (Qlt_irrefl 1). eapply Qlt_le_trans; [exact Hgt|exact Hle].
Qed.

(** The PRR of a Bloom filter and masks as [GetPrrMasks] makes them, bit by
    bit. *)
Lemma PrrCombine_testbit (enc : Encoder) (value : list byte)
    (bloom uniform f_mask : Bits) (k : Z) :
  constructed enc ->
  MakeBloomFilter enc value = Defined (Some bloom) ->
  GetPrrMasks enc value = Defined (Some (uniform, f_mask)) ->
  Z.testbit (PrrCombine bloom uniform f_mask) k
  = if Z.testbit f_mask k then Z.testbit uniform k else Z.testbit bloom k.
Proof.
  intros Hc Hb Hm. unfold PrrCombine. rewrite Z.lor_spec, !Z.land_spec.
  pose proof (constructed_inv enc Hc) as (Hnb & _).
  destruct (Z.ltb_spec k 0) as [Hneg|Hpos].
  { rewrite !(Z.testbit_neg_r _ k) by lia. reflexivity. }
  destruct (Z.ltb_spec k 32) as [Hlt|Hge].
  - rewrite Bits_not_testbit by lia.
    destruct (Z.testbit f_mask k), (Z.testbit uniform k), (Z.testbit bloom k);
      reflexivity.
  - assert (Hbk : Z.testbit bloom k = false).
    { apply not_true_false. intros H.
      apply (MakeBloomFilter_inv enc value bloom Hc Hb) in H. lia. }
    assert (Hfk : Z.testbit f_mask k = false).
    { apply not_true_false. intros H.
      apply (GetPrrMasks_inv enc value uniform f_mask Hc Hm) in H. lia. }
    rewrite Hbk, Hfk, andb_false_r. reflexivity.
Qed.

(** * The claims *)

(** C1. PRR derivation: when the HMAC digest has exactly 32 bytes,
    [GetPrrMasks] succeeds; for every bit position [i] of [0, num_bits) bit
    [i] of the uniform mask is the least significant bit of [digest[i]], and
    bit [i] of the noise mask is set iff [digest[i] >> 1], a number of
    [0, 128), is below [floor (prob_f * 128)]; and the PRR written by
    [_EncodeInternal] is [(bloom AND NOT f_mask) OR (uniform AND f_mask)]:
    at every position it carries the bit of the uniform mask where the noise
    mask has a 1 and the bit of the Bloom filter where it has a 0, and as a
    number it is the Bloom filter without the bits of the noise mask
    ([Z.ldiff]), or'ed with the uniform mask cut to the noise mask; the
    complement is that of a 32-bit word ([Z.lxor] with 32 ones).
    [prob_f] is a binary32 value that stands for the real number [q]. *)
Theorem C1_prr_derivation (enc : Encoder) (value : list byte) (q : Q) :
  constructed enc ->
  Float32.valid (prob_f_ (params_ enc)) = true ->
  Float32.to_Q (prob_f_ (params_ enc)) = Some q ->
  length (hmac_func_ (deps_ enc) (client_secret_ (deps_ enc)) value) = 32%nat ->
  exists uniform f_mask,
    GetPrrMasks enc value = Defined (Some (uniform, f_mask)) /\
    (forall i, 0 <= i < num_bits_ (params_ enc) ->
       let digest_i :=
         byte_at (hmac_func_ (deps_ enc) (client_secret_ (deps_ enc)) value) i in
       Z.testbit uniform i = Z.testbit digest_i 0 /\
       0 <= Z.shiftr digest_i 1 < 128 /\
       (Z.testbit f_mask i = true <-> Z.shiftr digest_i 1 < Qfloor (q * 128))) /\
    (forall (R : Type) (irr_rand : IrrRandInterface R) (rand : R) (bloom : Bits),
       MakeBloomFilter enc value = Defined (Some bloom) ->
       exists ok written rand' prr,
         _EncodeInternal enc value rand = Defined (ok, written, rand') /\
         prr_out written = Some prr /\
         (forall i, Z.testbit prr i
                    = if Z.testbit f_mask i then Z.testbit uniform i
                      else Z.testbit bloom i) /\
         prr = Z.lor (Z.ldiff bloom f_mask) (Z.land uniform f_mask) /\
         prr = Z.lor (Z.land bloom (Z.lxor f_mask (Z.ones 32)))
                     (Z.land uniform f_mask)).
Proof.
  intros Hc Hv Hq Hlen.
  destruct (GetPrrMasks_ok enc value q Hc Hv Hq Hlen)
    as (uniform & f_mask & Hrun & Hbits).
  exists uniform, f_mask. split; [exact Hrun|]. split.
  - intros i Hi digest_i. destruct (Hbits i) as [Hu Hf].
    replace ((0 <=? i) && (i <? num_bits_ (params_ enc))) with true
      in Hu, Hf by zbool.
    cbn [andb] in Hu, Hf. split; [exact Hu|]. split.
    + pose proof (byte_at_range
                    (hmac_func_ (deps_ enc) (client_secret_ (deps_ enc)) value) i)
        as Hr.
      fold digest_i in Hr. rewrite Z.shiftr_div_pow2 by lia.
      change (2 ^ 1) with 2. split.
      * apply Z.div_pos; lia.
      * apply Z.div_lt_upper_bound; lia.
    + rewrite Hf. unfold noise_bit. apply Z.ltb_lt.
  - intros R irr_rand rand bloom Hbloom.
    pose proof (constructed_inv enc Hc) as (Hnb & _).
    assert (Hbit : forall i,
               Z.testbit (PrrCombine bloom uniform f_mask) i
               = if Z.testbit f_mask i then Z.testbit uniform i
                 else Z.testbit bloom i)
      by (intros i; exact (PrrCombine_testbit enc value bloom uniform f_mask i
                             Hc Hbloom Hrun)).
    assert (Hdiff : PrrCombine bloom uniform f_mask
                    = Z.lor (Z.ldiff bloom f_mask) (Z.land uniform f_mask)).
    { apply Z.bits_inj'. intros i Hi.
      rewrite Hbit, Z.lor_spec, Z.ldiff_spec, Z.land_spec.
      destruct (Z.testbit f_mask i), (Z.testbit uniform i),
        (Z.testbit bloom i); reflexivity. }
    assert (Hxor : PrrCombine bloom uniform f_mask
                   = Z.lor (Z.land bloom (Z.lxor f_mask (Z.ones 32)))
                           (Z.land uniform f_mask)).
    { apply Z.bits_inj'. intros i Hi.
      rewrite Hbit, Z.lor_spec, !Z.land_spec, Z.lxor_spec.
      destruct (Z.ltb_spec i 32) as [Hlt|Hge].
      - rewrite Z.ones_spec_low by lia.
        destruct (Z.testbit f_mask i), (Z.testbit uniform i),
          (Z.testbit bloom i); reflexivity.
      - assert (Hbk : Z.testbit bloom i = false).
        { apply not_true_false. intros H.
          apply (MakeBloomFilter_inv enc value bloom Hc Hbloom) in H. lia. }
        rewrite Hbk. destruct (Z.testbit f_mask i), (Z.testbit uniform i);
          reflexivity. }
    unfold _EncodeInternal. rewrite Hbloom, Hrun. cbn [mbind outcome_bind].
    destruct (GetMask (prob_p_ (params_ enc)) (num_bits_ (params_ enc)) rand)
      as [[p_bits|] rand1].
    + destruct (GetMask (prob_q_ (params_ enc)) (num_bits_ (params_ enc)) rand1)
        as [[q_bits|] rand2];
        eexists _, _, _, (PrrCombine bloom uniform f_mask);
        (split; [reflexivity|]); (split; [reflexivity|]);
        (split; [exact Hbit|]); (split; [exact Hdiff|exact Hxor]).
    + eexists _, _, _, (PrrCombine bloom uniform f_mask).
      split; [reflexivity|]. split; [reflexivity|].
      split; [exact Hbit|]. split; [exact Hdiff|exact Hxor].
Qed.

(** The test configuration meets the hypotheses: its threshold is 32. *)
Lemma C1_prr_derivation_witness :
  constructed Demo.encoder /\
  Float32.valid Demo.quarter = true /\
  Float32.to_Q Demo.quarter = Some (inject_Z 8388608 * 2 ^ (-25))%Q /\
  length (Demo.hmac Demo.secret Demo.foo) = 32%nat /\
  exists uniform f_mask,
    GetPrrMasks Demo.encoder Demo.foo = Defined (Some (uniform, f_mask)) /\
    (forall i, 0 <= i < 32 ->
       let digest_i := byte_at (Demo.hmac Demo.secret Demo.foo) i in
       Z.testbit uniform i = Z.testbit digest_i 0 /\
       0 <= Z.shiftr digest_i 1 < 128 /\
       (Z.testbit f_mask i = true <-> Z.shiftr digest_i 1 < 32)) /\
    (forall (R : Type) (irr_rand : IrrRandInterface R) (rand : R) (bloom : Bits),
       MakeBloomFilter Demo.encoder Demo.foo = Defined (Some bloom) ->
       exists ok written rand' prr,
         _EncodeInternal Demo.encoder Demo.foo rand
         = Defined (ok, written, rand') /\
         prr_out written = Some prr /\
         (forall i, Z.testbit prr i
                    = if Z.testbit f_mask i then Z.testbit uniform i
                      else Z.testbit bloom i) /\
         prr = Z.lor (Z.ldiff bloom f_mask) (Z.land uniform f_mask) /\
         prr = Z.lor (Z.land bloom (Z.lxor f_mask (Z.ones 32)))
                     (Z.land uniform f_mask)).
Proof.
  do 4 (split; [reflexivity|]).
  apply (C1_prr_derivation Demo.encoder Demo.foo
           (inject_Z 8388608 * 2 ^ (-25))%Q); reflexivity.
Defined.

(** C2. IRR derivation: after a successful [Encode], the output is
    [(p_bits & ~PRR) | (q_bits & PRR)], where [p_bits] was drawn first, with
    [prob_p], and [q_bits] second, with [prob_q], both for [num_bits] bits;
    bit by bit, the output takes the bit of [q_bits] where the PRR has a 1
    and the bit of [p_bits] where it has a 0. *)
Theorem C2_irr_derivation (R : Type) (irr_rand : IrrRandInterface R)
    (enc : Encoder) (value : list byte) (rand rand' : R) (out : option Bits) :
  Encode enc value rand = Defined (true, out, rand') ->
  exists bloom uniform f_mask p_bits q_bits rand1,
    MakeBloomFilter enc value = Defined (Some bloom) /\
    GetPrrMasks enc value = Defined (Some (uniform, f_mask)) /\
    GetMask (prob_p_ (params_ enc)) (num_bits_ (params_ enc)) rand
      = (Some p_bits, rand1) /\
    GetMask (prob_q_ (params_ enc)) (num_bits_ (params_ enc)) rand1
      = (Some q_bits, rand') /\
    let prr := Z.lor (Z.land bloom (Bits_not f_mask)) (Z.land uniform f_mask) in
    let irr := Z.lor (Z.land p_bits (Bits_not prr)) (Z.land q_bits prr) in
    out = Some irr /\
    forall i, 0 <= i < 32 ->
              Z.testbit irr i
              = if Z.testbit prr i then Z.testbit q_bits i
                else Z.testbit p_bits i.
Proof.
  unfold Encode, _EncodeInternal. intros Hrun.
  destruct (MakeBloomFilter enc value) as [[bloom|]| |]; try discriminate Hrun.
  cbn [mbind outcome_bind] in Hrun.
  destruct (GetPrrMasks enc value) as [[[uniform f_mask]|]| |];
    try discriminate Hrun.
  cbn [mbind outcome_bind] in Hrun.
  destruct (GetMask (prob_p_ (params_ enc)) (num_bits_ (params_ enc)) rand)
    as [[p_bits|] rand1] eqn:Hp; try discriminate Hrun.
  destruct (GetMask (prob_q_ (params_ enc)) (num_bits_ (params_ enc)) rand1)
    as [[q_bits|] rand2] eqn:Hq; try discriminate Hrun.
  injection Hrun as <- <-.
  exists bloom, uniform, f_mask, p_bits, q_bits, rand1.
  do 3 (split; [reflexivity|]). split; [exact Hq|].
  split; [reflexivity|].
  set (prr := Z.lor (Z.land bloom (Bits_not f_mask)) (Z.land uniform f_mask)).
  intros i Hi.
  rewrite Z.lor_spec, !Z.land_spec, Bits_not_testbit by lia.
  destruct (Z.testbit prr i), (Z.testbit q_bits i), (Z.testbit p_bits i);
    reflexivity.
Qed.

(** A successful call on the test configuration, with an all-zero [p_bits]
    and an all-one [q_bits]: the output is the PRR. *)
Lemma C2_irr_derivation_witness :
  Encode (irr_rand := Demo.scripted) Demo.encoder Demo.foo
    [Some 0; Some 4294967295]
  = Defined (true, Some 2130050, []) /\
  exists bloom uniform f_mask p_bits q_bits rand1,
    MakeBloomFilter Demo.encoder Demo.foo = Defined (Some bloom) /\
    GetPrrMasks Demo.encoder Demo.foo = Defined (Some (uniform, f_mask)) /\
    Demo.scripted Demo.three_quarters 32 [Some 0; Some 4294967295]
      = (Some p_bits, rand1) /\
    Demo.scripted Demo.half 32 rand1 = (Some q_bits, []) /\
    let prr := Z.lor (Z.land bloom (Bits_not f_mask)) (Z.land uniform f_mask) in
    let irr := Z.lor (Z.land p_bits (Bits_not prr)) (Z.land q_bits prr) in
    Some 2130050 = Some irr /\
    forall i, 0 <= i < 32 ->
              Z.testbit irr i
              = if Z.testbit prr i then Z.testbit q_bits i
                else Z.testbit p_bits i.
Proof.
  split; [vm_compute; reflexivity|].
  apply (C2_irr_derivation _ Demo.scripted Demo.encoder Demo.foo
           [Some 0; Some 4294967295] [] (Some 2130050)).
  vm_compute. reflexivity.
Defined.

(** C3. Bloom filter bit selection: when the hash function returns at least
    [num_hashes] bytes, [MakeBloomFilter] succeeds and bit [i] of the mask is
    set if and only if some [j < num_hashes] has
    [hash_output[j] mod num_bits = i].  Equal indices are OR'ed, not summed:
    when every byte selects the same bit [b], the mask is [2^b]. *)
Theorem C3_bloom_bit_selection (enc : Encoder) (value : list byte) :
  constructed enc ->
  num_hashes_ (params_ enc)
    <= Z.of_nat (length (hash_func_ (deps_ enc) (hash_input enc value))) ->
  exists bloom,
    MakeBloomFilter enc value = Defined (Some bloom) /\
    (forall i, Z.testbit bloom i = true <->
               exists j, 0 <= j < num_hashes_ (params_ enc) /\
                         byte_at (hash_func_ (deps_ enc) (hash_input enc value)) j
                           mod num_bits_ (params_ enc) = i) /\
    (forall b,
        (forall j, 0 <= j < num_hashes_ (params_ enc) ->
                   byte_at (hash_func_ (deps_ enc) (hash_input enc value)) j
                     mod num_bits_ (params_ enc) = b) ->
        bloom = 2 ^ b).
Proof.
  intros Hc Hlen.
  destruct (MakeBloomFilter_enough enc value Hc Hlen) as (bloom & Hrun & Hbits).
  exists bloom. split; [exact Hrun|]. split; [exact Hbits|].
  intros b Hsame. apply constructed_inv in Hc. destruct Hc as (Hnb & Hnh & _).
  assert (Hb : 0 <= b).
  { rewrite <- (Hsame 0) by lia. apply Z.mod_pos_bound. lia. }
  apply Z.bits_inj'. intros i Hi.
  rewrite Z.pow2_bits_eqb by exact Hb.
  destruct (Z.eqb_spec b i) as [->|Hne].
  - apply Hbits. exists 0. split; [lia|]. apply Hsame. lia.
  - destruct (Z.testbit bloom i) eqn:Hbit; [|reflexivity].
    apply Hbits in Hbit. destruct Hbit as (j & Hj & Hji).
    rewrite (Hsame j Hj) in Hji. contradiction.
Qed.

(** On the test configuration both hash bytes select bit 0, and the mask is
    1. *)
Lemma C3_bloom_bit_selection_witness :
  constructed Demo.encoder /\
  2 <= Z.of_nat (length (Demo.hash (hash_input Demo.encoder Demo.foo))) /\
  exists bloom,
    MakeBloomFilter Demo.encoder Demo.foo = Defined (Some bloom) /\
    (forall i, Z.testbit bloom i = true <->
               exists j, 0 <= j < 2 /\
                         byte_at ([x00; x00; x00; x03] ++ Demo.foo) j mod 32 = i) /\
    (forall b,
        (forall j, 0 <= j < 2 ->
                   byte_at ([x00; x00; x00; x03] ++ Demo.foo) j mod 32 = b) ->
        bloom = 2 ^ b).
Proof.
  split; [reflexivity|]. split; [vm_compute; discriminate|].
  apply (C3_bloom_bit_selection Demo.encoder Demo.foo).
  - reflexivity.
  - vm_compute. discriminate.
Defined.

(** C4, as stated, fails: with 257 cohorts the constructor accepts cohort
    256, and the hash input then starts with four zero bytes, not with the
    big-endian encoding 0, 0, 1, 0. *)
Lemma C4_hash_input_counterexample :
  ~ (forall (enc : Encoder) (value : list byte),
        constructed enc ->
        0 <= cohort_ (deps_ enc) < num_cohorts_ (params_ enc) ->
        hash_input enc value = big_endian4 (cohort_ (deps_ enc)) ++ value).
Proof.
  intros H.
  specialize (H Demo.wide_encoder Demo.foo eq_refl ltac:(cbn; lia)).
  vm_compute in H. discriminate H.
Qed.

(** C4, amended.  The hash input is three zero bytes, the low 8 bits of the
    cohort, and the raw value bytes; for a cohort of [0, num_cohorts) below
    256 (every cohort when [num_cohorts <= 256]) that is the 4-byte
    big-endian encoding of the cohort followed by the value.  The hash
    function is applied to this input and to nothing else. *)
Theorem C4_hash_input (enc : Encoder) (value : list byte) :
  0 <= cohort_ (deps_ enc) < num_cohorts_ (params_ enc) ->
  hash_input enc value
  = [x00; x00; x00; to_uint8 (Z.land (cohort_ (deps_ enc)) 255)] ++ value /\
  (cohort_ (deps_ enc) < 256 ->
   hash_input enc value = big_endian4 (cohort_ (deps_ enc)) ++ value) /\
  (forall hash : list byte -> list byte,
      hash (hash_input enc value)
      = hash_func_ (deps_ enc) (hash_input enc value) ->
      MakeBloomFilter (with_hash_func enc hash) value
      = MakeBloomFilter enc value).
Proof.
  intros Hc. split; [apply hash_input_eq|]. split.
  - intros Hlow. rewrite big_endian4_small by lia. apply hash_input_eq.
  - intros hash Hsame. unfold MakeBloomFilter.
    change (hash_func_ (deps_ (with_hash_func enc hash))) with hash.
    change (hash_input (with_hash_func enc hash) value)
      with (hash_input enc value).
    rewrite Hsame. reflexivity.
Qed.

(** Cohort 3 of the test configuration. *)
Lemma C4_hash_input_witness :
  0 <= 3 < 128 /\
  hash_input Demo.encoder Demo.foo
  = [x00; x00; x00; to_uint8 (Z.land 3 255)] ++ Demo.foo /\
  (3 < 256 -> hash_input Demo.encoder Demo.foo = big_endian4 3 ++ Demo.foo) /\
  (forall hash : list byte -> list byte,
      hash (hash_input Demo.encoder Demo.foo)
      = Demo.hash (hash_input Demo.encoder Demo.foo) ->
      MakeBloomFilter (with_hash_func Demo.encoder hash) Demo.foo
      = MakeBloomFilter Demo.encoder Demo.foo).
Proof.
  split; [lia|].
  apply (C4_hash_input Demo.encoder Demo.foo). cbn. lia.
Defined.

(** C5. PRR determinism: the PRR that [_EncodeInternal] writes is the value
    of [Prr], a function of the parameters, the cohort, the secret, the
    value and the two injected functions: the randomness source and its
    state have no part in it, and a call that stops before the IRR stage
    leaves the source as it was.  The IRR stage draws two masks from the
    source on every successful call and hands the source on in its new
    state.  On the test configuration two consecutive calls write the same
    PRR and different IRRs. *)
Theorem C5_prr_deterministic :
  (forall (enc : Encoder) (value : list byte)
          (R : Type) (irr_rand : IrrRandInterface R) (rand : R),
      written_prr (_EncodeInternal enc value rand)
      = Prr (params_ enc) (cohort_ (deps_ enc)) (hash_func_ (deps_ enc))
            (client_secret_ (deps_ enc)) (hmac_func_ (deps_ enc)) value /\
      forall ok written rand',
        _EncodeInternal enc value rand = Defined (ok, written, rand') ->
        (prr_out written = None -> ok = false /\ rand' = rand) /\
        (ok = true ->
         exists prr p_bits q_bits rand1,
           prr_out written = Some prr /\
           GetMask (prob_p_ (params_ enc)) (num_bits_ (params_ enc)) rand
             = (Some p_bits, rand1) /\
           GetMask (prob_q_ (params_ enc)) (num_bits_ (params_ enc)) rand1
             = (Some q_bits, rand') /\
           irr_out written = Some (IrrCombine prr p_bits q_bits))) /\
  (exists written1 rand1 written2 rand2,
      _EncodeInternal (irr_rand := Demo.counting) Demo.encoder Demo.foo 1%nat
        = Defined (true, written1, rand1) /\
      _EncodeInternal (irr_rand := Demo.counting) Demo.encoder Demo.foo rand1
        = Defined (true, written2, rand2) /\
      prr_out written1 = prr_out written2 /\
      irr_out written1 <> irr_out written2).
Proof.
  split.
  - intros enc value R irr_rand rand. split; [apply _EncodeInternal_prr|].
    intros ok written rand'. unfold _EncodeInternal.
    destruct (MakeBloomFilter enc value) as [[bloom|]| |];
      cbn [mbind outcome_bind mret outcome_ret]; try discriminate.
    2:{ intros [= <- <- <-]. split; [auto|discriminate]. }
    destruct (GetPrrMasks enc value) as [[[uniform f_mask]|]| |];
      cbn [mbind outcome_bind mret outcome_ret]; try discriminate.
    2:{ intros [= <- <- <-]. split; [auto|discriminate]. }
    destruct (GetMask (prob_p_ (params_ enc)) (num_bits_ (params_ enc)) rand)
      as [[p_bits|] rand1] eqn:Hp.
    2:{ intros [= <- <- <-]. split; [discriminate|discriminate]. }
    destruct (GetMask (prob_q_ (params_ enc)) (num_bits_ (params_ enc)) rand1)
      as [[q_bits|] rand2] eqn:Hq.
    2:{ intros [= <- <- <-]. split; [discriminate|discriminate]. }
    intros [= <- <- <-]. split; [discriminate|]. intros _.
    exists (PrrCombine bloom uniform f_mask), p_bits, q_bits, rand1.
    cbn [prr_out irr_out]. auto.
  - eexists _, _, _, _. split; [vm_compute; reflexivity|].
    split; [vm_compute; reflexivity|]. split; [reflexivity|].
    cbn [irr_out]. discriminate.
Qed.

(** Two randomness sources, one of them failing at once, and the same PRR. *)
Lemma C5_prr_deterministic_witness :
  written_prr (_EncodeInternal (irr_rand := Demo.counting)
                 Demo.encoder Demo.foo 1%nat)
  = written_prr (_EncodeInternal (irr_rand := Demo.scripted)
                   Demo.encoder Demo.foo [None]).
Proof.
  exact (eq_trans
           (proj1 (proj1 C5_prr_deterministic Demo.encoder Demo.foo
                         nat Demo.counting 1%nat))
           (eq_sym
              (proj1 (proj1 C5_prr_deterministic Demo.encoder Demo.foo
                            (list (option Bits)) Demo.scripted [None])))).
Defined.

(** C6. The constructor is meant to fault on every probability outside
    (0.0, 1.0].  A [prob_f] that is NaN is not in that interval, yet both
    comparisons of [CheckValidProbability] are false on it and the
    constructor returns the encoder; [GetPrrMasks] then converts NaN to
    [uint8_t], which the language leaves undefined. *)
Theorem C6_nan_probability_accepted :
  ~ in_unit_interval (prob_f_ Demo.nan_params) /\
  Encoder_ctor [] Demo.nan_params Demo.deps
  = inr (mkEncoder [] Demo.nan_params Demo.deps) /\
  GetPrrMasks (mkEncoder [] Demo.nan_params Demo.deps) Demo.foo = Undefined.
Proof.
  split; [|split; reflexivity].
  intros (q & Hq & _). discriminate Hq.
Qed.

(** C7. Operational faults: on a constructed encoder (with a [prob_f] that
    is a number) [Encode] returns, and returns [false] exactly when the hash
    function returned fewer than [num_hashes] bytes, or the HMAC digest is
    not 32 bytes long, or the first or the second draw from the randomness
    source fails; a failed call writes nothing to [irr_out], a successful one
    writes the IRR.  [Encode] is a [const] method, the encoder after the
    call is the encoder before it: whatever the outcome, it encodes any
    further value from any later state of the source. *)
Theorem C7_fault_propagation (R : Type) (irr_rand : IrrRandInterface R)
    (enc : Encoder) (value : list byte) (rand : R) (q : Q) :
  constructed enc ->
  Float32.valid (prob_f_ (params_ enc)) = true ->
  Float32.to_Q (prob_f_ (params_ enc)) = Some q ->
  exists ok out rand',
    Encode enc value rand = Defined (ok, out, rand') /\
    (ok = false <->
     Z.of_nat (length (hash_func_ (deps_ enc) (hash_input enc value)))
       < num_hashes_ (params_ enc) \/
     length (hmac_func_ (deps_ enc) (client_secret_ (deps_ enc)) value)
       <> 32%nat \/
     (GetMask (prob_p_ (params_ enc)) (num_bits_ (params_ enc)) rand).1
       = None \/
     (GetMask (prob_q_ (params_ enc)) (num_bits_ (params_ enc))
        (GetMask (prob_p_ (params_ enc)) (num_bits_ (params_ enc)) rand).2).1
       = None) /\
    (ok = false -> out = None) /\
    (ok = true -> exists irr, out = Some irr) /\
    (forall (value2 : list byte) (rand2 : R),
        exists ok2 out2 rand2',
          Encode enc value2 rand2 = Defined (ok2, out2, rand2')).
Proof.
  intros Hc Hv Hq.
  destruct (Encode_cases R irr_rand enc value rand q Hc Hv Hq)
    as (ok & out & rand' & Hrun & Hiff & Hfail & Hok).
  exists ok, out, rand'. repeat (split; [assumption|]).
  intros value2 rand2.
  destruct (Encode_cases R irr_rand enc value2 rand2 q Hc Hv Hq)
    as (ok2 & out2 & rand2' & Hrun2 & _).
  exists ok2, out2, rand2'. exact Hrun2.
Qed.

(** A call on the test configuration whose second draw fails. *)
Lemma C7_fault_propagation_witness :
  constructed Demo.encoder /\
  Float32.valid Demo.quarter = true /\
  Float32.to_Q Demo.quarter = Some (inject_Z 8388608 * 2 ^ (-25))%Q /\
  exists ok out rand',
    Encode (irr_rand := Demo.scripted) Demo.encoder Demo.foo [Some 5; None]
      = Defined (ok, out, rand') /\
    (ok = false <->
     Z.of_nat (length (Demo.hash (hash_input Demo.encoder Demo.foo))) < 2 \/
     length (Demo.hmac Demo.secret Demo.foo) <> 32%nat \/
     (Demo.scripted Demo.three_quarters 32 [Some 5; None]).1 = None \/
     (Demo.scripted Demo.half 32
        (Demo.scripted Demo.three_quarters 32 [Some 5; None]).2).1 = None) /\
    (ok = false -> out = None) /\
    (ok = true -> exists irr, out = Some irr) /\
    (forall (value2 : list byte) (rand2 : list (option Bits)),
        exists ok2 out2 rand2',
          Encode (irr_rand := Demo.scripted) Demo.encoder value2 rand2
          = Defined (ok2, out2, rand2')).
Proof.
  do 3 (split; [reflexivity|]).
  apply (C7_fault_propagation _ Demo.scripted Demo.encoder Demo.foo
           [Some 5; None] (inject_Z 8388608 * 2 ^ (-25))%Q); reflexivity.
Defined.

(** C8. Bounded width: whatever a call of [_EncodeInternal] writes, the
    Bloom filter, the PRR and the IRR, has no bit set at a position
    [i >= num_bits], provided the randomness source returns masks of the
    width it is asked for. *)
Theorem C8_bounded_width (R : Type) (irr_rand : IrrRandInterface R)
    (enc : Encoder) (value : list byte) (rand rand' : R)
    (ok : bool) (written : Written) :
  constructed enc ->
  (forall prob k s m s',
      GetMask prob k s = (Some m, s') ->
      forall i, k <= i -> Z.testbit m i = false) ->
  _EncodeInternal enc value rand = Defined (ok, written, rand') ->
  forall i, num_bits_ (params_ enc) <= i ->
    (forall bloom, bloom_out written = Some bloom -> Z.testbit bloom i = false) /\
    (forall prr, prr_out written = Some prr -> Z.testbit prr i = false) /\
    (forall irr, irr_out written = Some irr -> Z.testbit irr i = false).
Proof.
  intros Hc Hwidth Hrun i Hi. unfold _EncodeInternal in Hrun.
  destruct (MakeBloomFilter enc value) as [[bloom|]| |] eqn:Hbloom;
    cbn [mbind outcome_bind mret outcome_ret] in Hrun; try discriminate Hrun.
  2:{ injection Hrun as <- <- <-. repeat split; discriminate. }
  assert (Hb : Z.testbit bloom i = false).
  { apply not_true_false. intros H.
    apply (MakeBloomFilter_inv enc value bloom Hc Hbloom) in H. lia. }
  destruct (GetPrrMasks enc value) as [[[uniform f_mask]|]| |] eqn:Hmasks;
    cbn [mbind outcome_bind mret outcome_ret] in Hrun; try discriminate Hrun.
  2:{ injection Hrun as <- <- <-. cbn [bloom_out prr_out irr_out].
      split; [intros ? [= <-]; exact Hb|]. split; discriminate. }
  assert (Hu : Z.testbit uniform i = false).
  { apply not_true_false. intros H.
    apply (GetPrrMasks_inv enc value uniform f_mask Hc Hmasks) in H. lia. }
  assert (Hprr : Z.testbit (PrrCombine bloom uniform f_mask) i = false).
  { unfold PrrCombine. rewrite Z.lor_spec, !Z.land_spec, Hb, Hu. reflexivity. }
  destruct (GetMask (prob_p_ (params_ enc)) (num_bits_ (params_ enc)) rand)
    as [[p_bits|] rand1] eqn:Hp.
  2:{ injection Hrun as <- <- <-. cbn [bloom_out prr_out irr_out].
      split; [intros ? [= <-]; exact Hb|].
      split; [intros ? [= <-]; exact Hprr|discriminate]. }
  destruct (GetMask (prob_q_ (params_ enc)) (num_bits_ (params_ enc)) rand1)
    as [[q_bits|] rand2] eqn:Hq.
  2:{ injection Hrun as <- <- <-. cbn [bloom_out prr_out irr_out].
      split; [intros ? [= <-]; exact Hb|].
      split; [intros ? [= <-]; exact Hprr|discriminate]. }
  injection Hrun as <- <- <-. cbn [bloom_out prr_out irr_out].
  split; [intros ? [= <-]; exact Hb|].
  split; [intros ? [= <-]; exact Hprr|].
  intros ? [= <-]. unfold IrrCombine.
  rewrite Z.lor_spec, !Z.land_spec.
  rewrite (Hwidth _ _ _ _ _ Hp i Hi), (Hwidth _ _ _ _ _ Hq i Hi). reflexivity.
Qed.

(** A successful call on the test configuration with the counting source. *)
Lemma C8_bounded_width_witness :
  constructed Demo.encoder /\
  (forall prob k s m s',
      Demo.counting prob k s = (Some m, s') ->
      forall i, k <= i -> Z.testbit m i = false) /\
  _EncodeInternal (irr_rand := Demo.counting) Demo.encoder Demo.foo 1%nat
  = Defined (true, mkWritten (Some 1) (Some 2130050) (Some 2654468403), 3%nat) /\
  forall i, 32 <= i ->
    (forall bloom, Some 1 = Some bloom -> Z.testbit bloom i = false) /\
    (forall prr, Some 2130050 = Some prr -> Z.testbit prr i = false) /\
    (forall irr, Some 2654468403 = Some irr -> Z.testbit irr i = false).
Proof.
  split; [reflexivity|]. split; [exact counting_width|].
  split; [vm_compute; reflexivity|].
  apply (C8_bounded_width nat Demo.counting Demo.encoder Demo.foo 1%nat 3%nat
           true (mkWritten (Some 1) (Some 2130050) (Some 2654468403))).
  - reflexivity.
  - exact counting_width.
  - vm_compute. reflexivity.
Defined.

(** C10. Cohort truncation: two cohorts equal modulo 256, with everything
    else the same, give the same Bloom filter and the same [Encode] result:
    only the low 8 bits of the cohort reach the encoding. *)
Theorem C10_cohort_truncation (enc : Encoder) (c1 c2 : Z) (value : list byte) :
  c1 mod 256 = c2 mod 256 ->
  MakeBloomFilter (with_cohort enc c1) value
  = MakeBloomFilter (with_cohort enc c2) value /\
  forall (R : Type) (irr_rand : IrrRandInterface R) (rand : R),
    Encode (with_cohort enc c1) value rand
    = Encode (with_cohort enc c2) value rand.
Proof.
  intros Hmod.
  assert (Hin : hash_input (with_cohort enc c1) value
                = hash_input (with_cohort enc c2) value).
  { rewrite !hash_input_eq. cbn [with_cohort deps_ cohort_].
    rewrite !land_255, Hmod. reflexivity. }
  assert (Hbloom : MakeBloomFilter (with_cohort enc c1) value
                   = MakeBloomFilter (with_cohort enc c2) value).
  { unfold MakeBloomFilter. rewrite Hin. reflexivity. }
  split; [exact Hbloom|].
  intros R irr_rand rand. unfold Encode, _EncodeInternal.
  rewrite Hbloom. reflexivity.
Qed.

(** Cohorts 3 and 259. *)
Lemma C10_cohort_truncation_witness :
  3 mod 256 = 259 mod 256 /\
  MakeBloomFilter (with_cohort Demo.encoder 3) Demo.foo
  = MakeBloomFilter (with_cohort Demo.encoder 259) Demo.foo /\
  forall (R : Type) (irr_rand : IrrRandInterface R) (rand : R),
    Encode (with_cohort Demo.encoder 3) Demo.foo rand
    = Encode (with_cohort Demo.encoder 259) Demo.foo rand.
Proof.
  split; [reflexivity|].
  apply (C10_cohort_truncation Demo.encoder 3 259 Demo.foo). reflexivity.
Defined.

(** * Further properties *)

(** ** Auxiliary facts *)

Lemma bits_eq_of_iff (a b : Z) :
  (forall k, Z.testbit a k = true <-> Z.testbit b k = true) -> a = b.
Proof.
  intros H. apply Z.bits_inj'. intros k _.
  destruct (Z.testbit a k) eqn:Ha, (Z.testbit b k) eqn:Hb; try reflexivity.
  - apply H in Ha. congruence.
  - apply H in Hb. congruence.
Qed.

Lemma bound_of_high_bits (x n : Z) :
  0 <= n -> (forall i, n <= i -> Z.testbit x i = false) -> 0 <= x < 2 ^ n.
Proof.
  intros Hn Hhigh.
  assert (Hmod : x mod 2 ^ n = x).
  { apply Z.bits_inj'. intros k Hk.
    destruct (Z.ltb_spec k n) as [Hlt|Hge].
    - apply Z.mod_pow2_bits_low. lia.
    - rewrite Z.mod_pow2_bits_high by lia. symmetry. apply Hhigh. exact Hge. }
  rewrite <- Hmod. apply Z.mod_pos_bound. apply Z.pow_pos_nonneg; lia.
Qed.

Lemma byte_at_take (v : list byte) (n : nat) (j : Z) :
  0 <= j < Z.of_nat n -> byte_at (take n v) j = byte_at v j.
Proof.
  intros Hj. unfold byte_at. rewrite lookup_take_lt by lia. reflexivity.
Qed.

Lemma to_uint8_inj (a b : Z) : to_uint8 a = to_uint8 b -> a mod 256 = b mod 256.
Proof.
  intros H. rewrite <- !uint8_val_to_uint8. rewrite H. reflexivity.
Qed.

Lemma GetPrrMasks_not_false (enc : Encoder) (value : list byte) :
  constructed enc ->
  length (hmac_func_ (deps_ enc) (client_secret_ (deps_ enc)) value) = 32%nat ->
  GetPrrMasks enc value <> Defined None.
Proof.
  intros Hc Hlen Hrun.
  destruct (Float32.to_uint8_cast
              (Float32.mul (prob_f_ (params_ enc)) (Float32.of_int 128)))
    as [t| |] eqn:Hth.
  - destruct (GetPrrMasks_run enc value t Hc Hlen Hth) as (u & f & Hrun' & _).
    rewrite Hrun in Hrun'. discriminate.
  - revert Hrun. unfold GetPrrMasks, kMaxBits. rewrite Hth, Hlen.
    change (Z.of_nat 32 =? 32) with true. cbn [negb].
    destruct (negb _); discriminate.
  - revert Hrun. unfold GetPrrMasks, kMaxBits. rewrite Hth, Hlen.
    change (Z.of_nat 32 =? 32) with true. cbn [negb].
    destruct (negb _); discriminate.
Qed.

(** The stages of a call of [_EncodeInternal] that returns: where it stopped,
    what it wrote and where it left the randomness source. *)
Lemma _EncodeInternal_stages (R : Type) (irr_rand : IrrRandInterface R)
    (enc : Encoder) (value : list byte) (rand rand' : R)
    (ok : bool) (written : Written) :
  constructed enc ->
  _EncodeInternal enc value rand = Defined (ok, written, rand') ->
  let hash_len :=
    Z.of_nat (length (hash_func_ (deps_ enc) (hash_input enc value))) in
  let digest_len :=
    length (hmac_func_ (deps_ enc) (client_secret_ (deps_ enc)) value) in
  let first :=
    GetMask (prob_p_ (params_ enc)) (num_bits_ (params_ enc)) rand in
  let second :=
    GetMask (prob_q_ (params_ enc)) (num_bits_ (params_ enc)) first.2 in
  (hash_len < num_hashes_ (params_ enc) /\
   ok = false /\ written = mkWritten None None None /\ rand' = rand) \/
  (exists bloom,
      num_hashes_ (params_ enc) <= hash_len /\
      MakeBloomFilter enc value = Defined (Some bloom) /\
      digest_len <> 32%nat /\
      ok = false /\ written = mkWritten (Some bloom) None None /\
      rand' = rand) \/
  (exists bloom uniform f_mask,
      num_hashes_ (params_ enc) <= hash_len /\
      MakeBloomFilter enc value = Defined (Some bloom) /\
      digest_len = 32%nat /\
      GetPrrMasks enc value = Defined (Some (uniform, f_mask)) /\
      first.1 = None /\
      ok = false /\
      written = mkWritten (Some bloom)
                  (Some (PrrCombine bloom uniform f_mask)) None /\
      rand' = first.2) \/
  (exists bloom uniform f_mask p_bits,
      num_hashes_ (params_ enc) <= hash_len /\
      MakeBloomFilter enc value = Defined (Some bloom) /\
      digest_len = 32%nat /\
      GetPrrMasks enc value = Defined (Some (uniform, f_mask)) /\
      first.1 = Some p_bits /\ second.1 = None /\
      ok = false /\
      written = mkWritten (Some bloom)
                  (Some (PrrCombine bloom uniform f_mask)) None /\
      rand' = second.2) \/
  (exists bloom uniform f_mask p_bits q_bits,
      num_hashes_ (params_ enc) <= hash_len /\
      MakeBloomFilter enc value = Defined (Some bloom) /\
      digest_len = 32%nat /\
      GetPrrMasks enc value = Defined (Some (uniform, f_mask)) /\
      first.1 = Some p_bits /\ second.1 = Some q_bits /\
      ok = true /\
      written = mkWritten (Some bloom)
                  (Some (PrrCombine bloom uniform f_mask))
                  (Some (IrrCombine (PrrCombine bloom uniform f_mask)
                                    p_bits q_bits)) /\
      rand' = second.2).
Proof.
  intros Hc. unfold _EncodeInternal. cbv zeta.
  destruct (Z.lt_ge_cases
              (Z.of_nat (length (hash_func_ (deps_ enc) (hash_input enc value))))
              (num_hashes_ (params_ enc))) as [Hshort|Henough].
  { rewrite (MakeBloomFilter_short enc value Hc Hshort).
    cbn [mbind outcome_bind mret outcome_ret].
    intros [= <- <- <-]. left. auto. }
  destruct (MakeBloomFilter_enough enc value Hc Henough) as (bloom & Hb & _).
  rewrite Hb. cbn [mbind outcome_bind mret outcome_ret]. intros Hrun.
  right.
  destruct (Nat.eq_dec
              (length (hmac_func_ (deps_ enc) (client_secret_ (deps_ enc)) value))
              32%nat) as [Hlen|Hlen].
  2:{ rewrite (GetPrrMasks_bad_length enc value Hlen) in Hrun.
      cbn [mbind outcome_bind mret outcome_ret] in Hrun.
      injection Hrun as <- <- <-. left. exists bloom. repeat split; auto. }
  right.
  destruct (GetPrrMasks enc value) as [[[uniform f_mask]|]| |] eqn:Hm;
    try discriminate Hrun.
  2:{ destruct (GetPrrMasks_not_false enc value Hc Hlen Hm). }
  cbn [mbind outcome_bind mret outcome_ret] in Hrun.
  destruct (GetMask (prob_p_ (params_ enc)) (num_bits_ (params_ enc)) rand)
    as [[p_bits|] rand1]; cbn [fst snd].
  2:{ injection Hrun as <- <- <-. left. exists bloom, uniform, f_mask. repeat split; auto. }
  right.
  destruct (GetMask (prob_q_ (params_ enc)) (num_bits_ (params_ enc)) rand1)
    as [[q_bits|] rand2]; cbn [fst snd].
  2:{ injection Hrun as <- <- <-. left.
      exists bloom, uniform, f_mask, p_bits. repeat split; auto. }
  injection Hrun as <- <- <-. right.
  exists bloom, uniform, f_mask, p_bits, q_bits. repeat split; auto.
Qed.

(** ** Construction *)

(** X1. [CheckValidProbability] lets a binary32 value through exactly when it
    is NaN or a number of (0.0, 1.0]; otherwise it reports the variable name
    it was given. *)
Theorem X1_CheckValidProbability (prob : float) (var_name : string) :
  Float32.valid prob = true ->
  (CheckValidProbability prob var_name = None <->
   prob = S754_nan \/ in_unit_interval prob) /\
  (CheckValidProbability prob var_name = Some (BadProbability var_name) <->
   prob <> S754_nan /\ ~ in_unit_interval prob).
Proof.
  intros Hv. split.
  - apply Float32Facts.CheckValidProbability_None. exact Hv.
  - apply CheckValidProbability_Some. exact Hv.
Qed.

(** The probability 0.25 of the unit tests. *)
Lemma X1_CheckValidProbability_witness :
  Float32.valid Demo.quarter = true /\
  (CheckValidProbability Demo.quarter "prob_f" = None <->
   Demo.quarter = S754_nan \/ in_unit_interval Demo.quarter) /\
  (CheckValidProbability Demo.quarter "prob_f"
   = Some (BadProbability "prob_f") <->
   Demo.quarter <> S754_nan /\ ~ in_unit_interval Demo.quarter).
Proof.
  split; [reflexivity|].
  apply (X1_CheckValidProbability Demo.quarter "prob_f"). reflexivity.
Defined.

(** X2. The constructor returns an encoder exactly when the three integer
    parameters are in their ranges, the cohort is below [num_cohorts], and
    each probability is a number of (0.0, 1.0] or NaN; the encoder then holds
    the identifier, the parameters and the dependencies it was given. *)
Theorem X2_constructor_accepts (encoder_id : list byte) (params : Params)
    (deps : Deps) (enc : Encoder) :
  Float32.valid (prob_f_ params) = true ->
  Float32.valid (prob_p_ params) = true ->
  Float32.valid (prob_q_ params) = true ->
  Encoder_ctor encoder_id params deps = inr enc <->
  enc = mkEncoder encoder_id params deps /\
  0 < num_bits_ params <= 32 /\ 0 < num_hashes_ params <= 16 /\
  0 < num_cohorts_ params /\ cohort_ deps < num_cohorts_ params /\
  (prob_f_ params = S754_nan \/ in_unit_interval (prob_f_ params)) /\
  (prob_p_ params = S754_nan \/ in_unit_interval (prob_p_ params)) /\
  (prob_q_ params = S754_nan \/ in_unit_interval (prob_q_ params)).
Proof.
  intros Hf Hp Hq. rewrite Encoder_ctor_inr.
  rewrite (Float32Facts.CheckValidProbability_None _ "prob_f" Hf).
  rewrite (Float32Facts.CheckValidProbability_None _ "prob_p" Hp).
  rewrite (Float32Facts.CheckValidProbability_None _ "prob_q" Hq).
  reflexivity.
Qed.

(** The encoder of the unit tests. *)
Lemma X2_constructor_accepts_witness :
  Float32.valid Demo.quarter = true /\
  Float32.valid Demo.three_quarters = true /\
  Float32.valid Demo.half = true /\
  (Encoder_ctor [] Demo.params Demo.deps
   = inr (mkEncoder [] Demo.params Demo.deps) <->
   mkEncoder [] Demo.params Demo.deps = mkEncoder [] Demo.params Demo.deps /\
   0 < 32 <= 32 /\ 0 < 2 <= 16 /\ 0 < 128 /\ 3 < 128 /\
   (Demo.quarter = S754_nan \/ in_unit_interval Demo.quarter) /\
   (Demo.three_quarters = S754_nan \/ in_unit_interval Demo.three_quarters) /\
   (Demo.half = S754_nan \/ in_unit_interval Demo.half)).
Proof.
  do 3 (split; [reflexivity|]).
  apply (X2_constructor_accepts [] Demo.params Demo.deps
           (mkEncoder [] Demo.params Demo.deps)); reflexivity.
Defined.



(** X4. The constructor checks the cohort from above only: every negative
    cohort is accepted, and the encoder then hashes as for the cohort
    [cohort mod 256] of [0, 256). *)
Theorem X4_negative_cohort (enc : Encoder) (cohort : Z) (value : list byte) :
  constructed enc -> cohort < 0 ->
  constructed (with_cohort enc cohort) /\
  0 <= cohort mod 256 < 256 /\
  hash_input (with_cohort enc cohort) value
  = big_endian4 (cohort mod 256) ++ value /\
  MakeBloomFilter (with_cohort enc cohort) value
  = MakeBloomFilter (with_cohort enc (cohort mod 256)) value.
Proof.
  intros Hc Hneg.
  assert (Hr : 0 <= cohort mod 256 < 256) by (apply Z.mod_pos_bound; lia).
  split; [|split; [exact Hr|split]].
  - unfold constructed. apply Encoder_ctor_inr.
    apply constructed_inv in Hc.
    destruct Hc as (Hb & Hh & Hn & _ & Hf & Hp & Hq).
    cbn [with_cohort encoder_id_ params_ deps_ cohort_].
    repeat split; try assumption; lia.
  - rewrite hash_input_eq, big_endian4_small by exact Hr.
    cbn [with_cohort deps_ cohort_].
    rewrite !land_255, Z.mod_mod by lia. reflexivity.
  - unfold MakeBloomFilter.
    assert (Hin : hash_input (with_cohort enc cohort) value
                  = hash_input (with_cohort enc (cohort mod 256)) value).
    { rewrite !hash_input_eq. cbn [with_cohort deps_ cohort_].
      rewrite !land_255, Z.mod_mod by lia. reflexivity. }
    rewrite Hin. reflexivity.
Qed.

(** Cohort -1 on the test configuration hashes as cohort 255. *)
Lemma X4_negative_cohort_witness :
  constructed Demo.encoder /\ -1 < 0 /\
  constructed (with_cohort Demo.encoder (-1)) /\
  0 <= (-1) mod 256 < 256 /\
  hash_input (with_cohort Demo.encoder (-1)) Demo.foo
  = big_endian4 ((-1) mod 256) ++ Demo.foo /\
  MakeBloomFilter (with_cohort Demo.encoder (-1)) Demo.foo
  = MakeBloomFilter (with_cohort Demo.encoder ((-1) mod 256)) Demo.foo.
Proof.
  split; [reflexivity|]. split; [lia|].
  apply (X4_negative_cohort Demo.encoder (-1) Demo.foo); [reflexivity|lia].
Defined.

(** ** The hash input *)

(** X5. The hash input is four bytes longer than the value (four bytes for
    the empty value), and two hash inputs are equal exactly when the values
    are equal and the cohorts agree modulo 256: the prefix has a fixed
    length, so no two values collide by concatenation. *)
Theorem X5_hash_input_injective (enc1 enc2 : Encoder) (value1 value2 : list byte) :
  length (hash_input enc1 value1) = (4 + length value1)%nat /\
  (hash_input enc1 value1 = hash_input enc2 value2 <->
   cohort_ (deps_ enc1) mod 256 = cohort_ (deps_ enc2) mod 256 /\
   value1 = value2).
Proof.
  rewrite !hash_input_eq, !land_255. split; [reflexivity|]. split.
  - cbn [app]. intros [= Hc Hv]. split; [|exact Hv].
    apply to_uint8_inj in Hc. rewrite !Z.mod_mod in Hc by lia. exact Hc.
  - intros [-> ->]. reflexivity.
Qed.

(** ** The Bloom filter *)

Lemma constructed_same_checks (enc enc' : Encoder) :
  params_ enc' = params_ enc ->
  cohort_ (deps_ enc') = cohort_ (deps_ enc) ->
  constructed enc -> constructed enc'.
Proof.
  intros Hp Hd Hc. apply constructed_inv in Hc.
  destruct enc' as [encoder_id params deps].
  cbn [params_ deps_] in Hp, Hd. subst params.
  unfold constructed. apply Encoder_ctor_inr.
  cbn [encoder_id_ params_ deps_]. rewrite Hd.
  split; [reflexivity|exact Hc].
Qed.

Lemma popcount_below_lor_pow2 (n : nat) (x k : Z) :
  0 <= k ->
  popcount_below n (Z.lor x (2 ^ k))
  = (popcount_below n x
     + if (k <? Z.of_nat n)%Z && negb (Z.testbit x k) then 1 else 0)%nat.
Proof.
  intros Hk. induction n as [|n IH].
  - cbn [popcount_below]. replace (k <? Z.of_nat 0) with false by zbool.
    reflexivity.
  - cbn [popcount_below]. rewrite IH, Z.lor_spec, Z.pow2_bits_eqb by exact Hk.
    destruct (Z.eqb_spec k (Z.of_nat n)) as [->|Hne].
    + replace (Z.of_nat n <? Z.of_nat n) with false by zbool.
      replace (Z.of_nat n <? Z.of_nat (S n)) with true by zbool.
      destruct (Z.testbit x (Z.of_nat n)); cbn; lia.
    + replace (k <? Z.of_nat (S n)) with (k <? Z.of_nat n) by zbool.
      rewrite orb_false_r. lia.
Qed.

Lemma bloom_loop_popcount (hash_output : list byte) (num_bits : Z)
    (count : nat) :
  0 < num_bits <= 32 ->
  forall (i : Z) (bloom : Bits),
    0 <= i -> i + Z.of_nat count <= Z.of_nat (length hash_output) ->
    exists bloom',
      for_from count i (bloom_body hash_output num_bits) bloom = Defined bloom' /\
      (popcount bloom <= popcount bloom' <= popcount bloom + count)%nat /\
      (0 < count -> 1 <= popcount bloom')%nat.
Proof.
  intros Hb. induction count as [|count IH]; intros i bloom Hi Hlen.
  - exists bloom. split; [reflexivity|]. lia.
  - rewrite for_from_succ, (bloom_body_step hash_output num_bits Hb) by lia.
    cbn [mbind outcome_bind].
    pose proof (Z.mod_pos_bound (byte_at hash_output i) num_bits ltac:(lia))
      as Hm.
    set (k := byte_at hash_output i mod num_bits) in *.
    destruct (IH (i + 1) (Z.lor bloom (2 ^ k))) as (bloom' & Hrun & Hpc & _);
      [lia|lia|].
    exists bloom'. split; [exact Hrun|].
    unfold popcount in *.
    rewrite popcount_below_lor_pow2 in Hpc by lia.
    replace (k <? Z.of_nat 32) with true in Hpc by zbool.
    cbn [andb] in Hpc.
    assert (Hset : Z.testbit bloom k = true -> (1 <= popcount_below 32 bloom)%nat).
    { intros Hbit.
      pose proof (popcount_below_lor_pow2 32 0 k ltac:(lia)) as H0.
      replace (k <? Z.of_nat 32) with true in H0 by zbool.
      rewrite Z.bits_0 in H0. cbn [andb negb] in H0.
      pose proof (popcount_below_lor_pow2 32 (2 ^ k) k ltac:(lia)) as H1.
      rewrite Z.lor_0_l in H0.
      assert (Hmono : forall n, (popcount_below n (2 ^ k)
                                 <= popcount_below n bloom)%nat).
      { induction n as [|n IHn]; cbn [popcount_below]; [lia|].
        rewrite Z.pow2_bits_eqb by lia.
        destruct (Z.eqb_spec k (Z.of_nat n)) as [Heq|Hne].
        - rewrite <- Heq, Hbit. lia.
        - destruct (Z.testbit bloom (Z.of_nat n)); lia. }
      specialize (Hmono 32%nat).
      assert (popcount_below 32 0 = 0%nat) by reflexivity. lia. }
    destruct (Z.testbit bloom k) eqn:Hbit; cbn [negb] in Hpc.
    + specialize (Hset eq_refl). lia.
    + lia.
Qed.

(** X6. [MakeBloomFilter] reads the first [num_hashes] bytes of the hash
    output and no others: two hash functions whose outputs on the hash input
    start with the same [num_hashes] bytes give the same result. *)
Theorem X6_bloom_uses_first_bytes (enc : Encoder) (value : list byte)
    (hash : list byte -> list byte) :
  constructed enc ->
  take (Z.to_nat (num_hashes_ (params_ enc))) (hash (hash_input enc value))
  = take (Z.to_nat (num_hashes_ (params_ enc)))
         (hash_func_ (deps_ enc) (hash_input enc value)) ->
  MakeBloomFilter (with_hash_func enc hash) value = MakeBloomFilter enc value.
Proof.
  intros Hc Htake.
  assert (Hc' : constructed (with_hash_func enc hash))
    by (apply (constructed_same_checks enc); [reflexivity|reflexivity|exact Hc]).
  pose proof (constructed_inv enc Hc) as (_ & Hh & _).
  pose proof (f_equal length Htake) as Hlen. rewrite !length_take in Hlen.
  destruct (Z.lt_ge_cases
              (Z.of_nat (length (hash_func_ (deps_ enc) (hash_input enc value))))
              (num_hashes_ (params_ enc))) as [Hshort|Henough].
  - rewrite (MakeBloomFilter_short enc value Hc Hshort).
    apply MakeBloomFilter_short; [exact Hc'|].
    change (hash_func_ (deps_ (with_hash_func enc hash))) with hash.
    change (hash_input (with_hash_func enc hash) value)
      with (hash_input enc value).
    change (params_ (with_hash_func enc hash)) with (params_ enc). lia.
  - destruct (MakeBloomFilter_enough enc value Hc Henough)
      as (bloom & -> & Hbits).
    destruct (MakeBloomFilter_enough (with_hash_func enc hash) value Hc')
      as (bloom' & -> & Hbits').
    { change (hash_func_ (deps_ (with_hash_func enc hash))) with hash.
      change (hash_input (with_hash_func enc hash) value)
        with (hash_input enc value).
      change (params_ (with_hash_func enc hash)) with (params_ enc). lia. }
    do 2 f_equal. apply bits_eq_of_iff. intros k.
    rewrite Hbits, Hbits'.
    change (hash_func_ (deps_ (with_hash_func enc hash))) with hash.
    change (hash_input (with_hash_func enc hash) value)
      with (hash_input enc value).
    change (params_ (with_hash_func enc hash)) with (params_ enc).
    split; intros (j & Hj & Hk); exists j; (split; [exact Hj|]);
      rewrite <- Hk;
      rewrite <- (byte_at_take (hash (hash_input enc value))
                    (Z.to_nat (num_hashes_ (params_ enc))) j) by lia;
      rewrite <- (byte_at_take (hash_func_ (deps_ enc) (hash_input enc value))
                    (Z.to_nat (num_hashes_ (params_ enc))) j) by lia;
      rewrite Htake; reflexivity.
Qed.

(** A hash that returns two more bytes than the one of the test
    configuration. *)
Lemma X6_bloom_uses_first_bytes_witness :
  constructed Demo.encoder /\
  take 2 (Demo.long_hash (hash_input Demo.encoder Demo.foo))
  = take 2 (Demo.hash (hash_input Demo.encoder Demo.foo)) /\
  MakeBloomFilter (with_hash_func Demo.encoder Demo.long_hash) Demo.foo
  = MakeBloomFilter Demo.encoder Demo.foo.
Proof.
  split; [reflexivity|]. split; [reflexivity|].
  apply (X6_bloom_uses_first_bytes Demo.encoder Demo.foo Demo.long_hash);
    reflexivity.
Defined.

(** X7. A Bloom filter that [MakeBloomFilter] returns has at least one bit
    set and at most [num_hashes], and is a number of [1, 2^num_bits). *)
Theorem X7_bloom_popcount (enc : Encoder) (value : list byte) (bloom : Bits) :
  constructed enc ->
  MakeBloomFilter enc value = Defined (Some bloom) ->
  (1 <= popcount bloom)%nat /\
  Z.of_nat (popcount bloom) <= num_hashes_ (params_ enc) /\
  1 <= bloom < 2 ^ num_bits_ (params_ enc).
Proof.
  intros Hc Hrun.
  pose proof (constructed_inv enc Hc) as (Hb & Hh & _).
  assert (Hrange : 0 <= bloom < 2 ^ num_bits_ (params_ enc)).
  { apply bound_of_high_bits; [lia|]. intros i Hi.
    apply not_true_false. intros Hbit.
    apply (MakeBloomFilter_inv enc value bloom Hc Hrun) in Hbit. lia. }
  destruct (Z.lt_ge_cases
              (Z.of_nat (length (hash_func_ (deps_ enc) (hash_input enc value))))
              (num_hashes_ (params_ enc))) as [Hshort|Henough].
  { rewrite (MakeBloomFilter_short enc value Hc Hshort) in Hrun. discriminate. }
  revert Hrun. unfold MakeBloomFilter, to_size_t, for_loop.
  rewrite (Z.mod_small (num_hashes_ (params_ enc))) by lia.
  destruct (Z.ltb_spec
              (Z.of_nat (length (hash_func_ (deps_ enc) (hash_input enc value))))
              (num_hashes_ (params_ enc))); [lia|].
  destruct (bloom_loop_popcount
              (hash_func_ (deps_ enc) (hash_input enc value))
              (num_bits_ (params_ enc))
              (Z.to_nat (num_hashes_ (params_ enc))) Hb 0 0)
    as (bloom' & Hloop & Hpc & Hpos); [lia|lia|].
  intros Hrun.
  assert (Heq : bloom' = bloom).
  { pose proof (f_equal (fun o => made ← o; mret (Some made)) Hloop) as Hl.
    cbn beta in Hl. rewrite Hrun in Hl. injection Hl as <-. reflexivity. }
  subst bloom'. change (popcount 0) with 0%nat in Hpc.
  specialize (Hpos ltac:(lia)).
  split; [exact Hpos|]. split; [lia|].
  split; [|lia].
  destruct (Z.eq_dec bloom 0) as [->|Hne]; [|lia].
  change (popcount 0) with 0%nat in Hpos. lia.
Qed.

(** The Bloom filter of the test configuration is 1: one bit for two
    hashes. *)
Lemma X7_bloom_popcount_witness :
  constructed Demo.encoder /\
  MakeBloomFilter Demo.encoder Demo.foo = Defined (Some 1) /\
  (1 <= popcount 1%Z)%nat /\ Z.of_nat (popcount 1) <= 2 /\ 1 <= 1 < 2 ^ 32.
Proof.
  split; [reflexivity|]. split; [vm_compute; reflexivity|].
  apply (X7_bloom_popcount Demo.encoder Demo.foo 1);
    [reflexivity|vm_compute; reflexivity].
Defined.

(** ** The PRR masks *)

Lemma noise_bit_128 (sha256 : list byte) (k : Z) : noise_bit sha256 128 k = true.
Proof.
  unfold noise_bit. pose proof (byte_at_range sha256 k) as Hr.
  apply Z.ltb_lt. rewrite Z.shiftr_div_pow2 by lia.
  apply Z.div_lt_upper_bound; lia.
Qed.

Lemma noise_bit_0 (sha256 : list byte) (k : Z) : noise_bit sha256 0 k = false.
Proof.
  unfold noise_bit. pose proof (byte_at_range sha256 k) as Hr.
  apply Z.ltb_ge. rewrite Z.shiftr_div_pow2 by lia. apply Z.div_pos; lia.
Qed.

Lemma noise_bit_mono (sha256 : list byte) (t t' k : Z) :
  t <= t' -> noise_bit sha256 t k = true -> noise_bit sha256 t' k = true.
Proof. unfold noise_bit. intros Ht H. apply Z.ltb_lt in H. apply Z.ltb_lt. lia. Qed.

Lemma Qfloor_below_one (x : Q) : (0 < x)%Q -> (x < 1)%Q -> Qfloor x = 0.
Proof.
  intros Hpos Hlt.
  pose proof (Qfloor_le x) as Hlo. pose proof (Qlt_floor x) as Hhi.
  assert (H1 : (inject_Z (Qfloor x) < inject_Z 1)%Q)
    by (eapply Qle_lt_trans; [exact Hlo|exact Hlt]).
  assert (H2 : (inject_Z 0 < inject_Z (Qfloor x + 1))%Q)
    by (eapply Qlt_trans; [exact Hpos|exact Hhi]).
  rewrite <- Zlt_Qlt in H1, H2. lia.
Qed.

(** X8. [GetPrrMasks] reads the first [num_bits] bytes of the digest and no
    others: two HMAC functions whose 32-byte digests start with the same
    [num_bits] bytes give the same masks. *)
Theorem X8_masks_use_first_bytes (enc : Encoder) (value : list byte)
    (hmac : list byte -> list byte -> list byte) (q : Q) :
  constructed enc ->
  Float32.valid (prob_f_ (params_ enc)) = true ->
  Float32.to_Q (prob_f_ (params_ enc)) = Some q ->
  length (hmac_func_ (deps_ enc) (client_secret_ (deps_ enc)) value) = 32%nat ->
  length (hmac (client_secret_ (deps_ enc)) value) = 32%nat ->
  take (Z.to_nat (num_bits_ (params_ enc)))
       (hmac (client_secret_ (deps_ enc)) value)
  = take (Z.to_nat (num_bits_ (params_ enc)))
         (hmac_func_ (deps_ enc) (client_secret_ (deps_ enc)) value) ->
  GetPrrMasks (with_hmac_func enc hmac) value = GetPrrMasks enc value.
Proof.
  intros Hc Hv Hq Hlen Hlen' Htake.
  assert (Hc' : constructed (with_hmac_func enc hmac))
    by (apply (constructed_same_checks enc); [reflexivity|reflexivity|exact Hc]).
  destruct (GetPrrMasks_ok enc value q Hc Hv Hq Hlen)
    as (u & f & -> & Hbits).
  destruct (GetPrrMasks_ok (with_hmac_func enc hmac) value q Hc' Hv Hq Hlen')
    as (u' & f' & -> & Hbits').
  change (hmac_func_ (deps_ (with_hmac_func enc hmac))
            (client_secret_ (deps_ (with_hmac_func enc hmac))) value)
    with (hmac (client_secret_ (deps_ enc)) value) in Hbits'.
  change (params_ (with_hmac_func enc hmac)) with (params_ enc) in Hbits'.
  assert (Hsame : forall k, 0 <= k < num_bits_ (params_ enc) ->
            byte_at (hmac (client_secret_ (deps_ enc)) value) k
            = byte_at (hmac_func_ (deps_ enc) (client_secret_ (deps_ enc)) value) k).
  { intros k Hk.
    rewrite <- (byte_at_take (hmac (client_secret_ (deps_ enc)) value)
                  (Z.to_nat (num_bits_ (params_ enc))) k) by lia.
    rewrite Htake. apply byte_at_take. lia. }
  do 3 f_equal; apply Z.bits_inj'; intros k Hk;
    destruct (Hbits k) as [Hu Hf]; destruct (Hbits' k) as [Hu' Hf'];
    rewrite ?Hu, ?Hf, ?Hu', ?Hf';
    (destruct (Z.ltb_spec k (num_bits_ (params_ enc))) as [Hlt|Hge];
     [|rewrite !andb_false_r; reflexivity]);
    unfold uniform_bit, noise_bit; rewrite Hsame by lia; reflexivity.
Qed.

(** A digest that changes from byte 8 on, for an encoder of 8 bits. *)
Lemma X8_masks_use_first_bytes_witness :
  constructed Demo.byte_encoder /\
  Float32.valid Demo.quarter = true /\
  Float32.to_Q Demo.quarter = Some (inject_Z 8388608 * 2 ^ (-25))%Q /\
  length (Demo.hmac Demo.secret Demo.foo) = 32%nat /\
  length (Demo.other_hmac Demo.secret Demo.foo) = 32%nat /\
  take 8 (Demo.other_hmac Demo.secret Demo.foo)
  = take 8 (Demo.hmac Demo.secret Demo.foo) /\
  GetPrrMasks (with_hmac_func Demo.byte_encoder Demo.other_hmac) Demo.foo
  = GetPrrMasks Demo.byte_encoder Demo.foo.
Proof.
  do 6 (split; [reflexivity|]).
  apply (X8_masks_use_first_bytes Demo.byte_encoder Demo.foo Demo.other_hmac
           (inject_Z 8388608 * 2 ^ (-25))%Q); reflexivity.
Defined.

(** X9. With [prob_f] equal to 1.0 the threshold is 128, every position
    below [num_bits] is a noise position, and the PRR is the uniform mask:
    nothing of the Bloom filter reaches it. *)
Theorem X9_prob_f_one (enc : Encoder) (value : list byte) :
  constructed enc ->
  prob_f_ (params_ enc) = Float32.one ->
  length (hmac_func_ (deps_ enc) (client_secret_ (deps_ enc)) value) = 32%nat ->
  exists uniform,
    GetPrrMasks enc value
    = Defined (Some (uniform, Z.ones (num_bits_ (params_ enc)))) /\
    forall (R : Type) (irr_rand : IrrRandInterface R) (rand rand' : R)
           (ok : bool) (written : Written) (prr : Bits),
      _EncodeInternal enc value rand = Defined (ok, written, rand') ->
      prr_out written = Some prr -> prr = uniform.
Proof.
  intros Hc Hone Hlen.
  pose proof (constructed_inv enc Hc) as (Hnb & _).
  assert (Hth : Float32.to_uint8_cast
                  (Float32.mul (prob_f_ (params_ enc)) (Float32.of_int 128))
                = Defined 128) by (rewrite Hone; reflexivity).
  destruct (GetPrrMasks_run enc value 128 Hc Hlen Hth)
    as (uniform & f_mask & Hrun & Hbits).
  assert (Hf : f_mask = Z.ones (num_bits_ (params_ enc))).
  { apply Z.bits_inj'. intros k Hk. destruct (Hbits k) as [_ ->].
    rewrite noise_bit_128, andb_true_r, Z.testbit_ones by lia. reflexivity. }
  subst f_mask. exists uniform. split; [exact Hrun|].
  intros R irr_rand rand rand' ok written prr Hcall Hprr.
  assert (Hcomb : forall bloom,
            MakeBloomFilter enc value = Defined (Some bloom) ->
            PrrCombine bloom uniform (Z.ones (num_bits_ (params_ enc)))
            = uniform).
  { intros bloom Hb. apply Z.bits_inj'. intros k Hk.
    rewrite (PrrCombine_testbit enc value bloom uniform _ k Hc Hb Hrun).
    rewrite Z.testbit_ones by lia.
    destruct (Z.leb_spec 0 k); [|lia].
    destruct (Z.ltb_spec k (num_bits_ (params_ enc))) as [Hlt|Hge];
      [reflexivity|]. cbn [andb].
    assert (Hbk : Z.testbit bloom k = false).
    { apply not_true_false. intros H'.
      apply (MakeBloomFilter_inv enc value bloom Hc Hb) in H'. lia. }
    assert (Huk : Z.testbit uniform k = false).
    { apply not_true_false. intros H'.
      apply (GetPrrMasks_inv enc value uniform _ Hc Hrun) in H'. lia. }
    rewrite Hbk, Huk. reflexivity. }
  destruct (_EncodeInternal_stages R irr_rand enc value rand rand' ok written
              Hc Hcall)
    as [(_ & _ & -> & _)
       |[(bloom & _ & _ & _ & _ & -> & _)
        |[(bloom & u & f & _ & Hb & _ & Hm & _ & _ & -> & _)
         |[(bloom & u & f & p & _ & Hb & _ & Hm & _ & _ & _ & -> & _)
          |(bloom & u & f & p & q & _ & Hb & _ & Hm & _ & _ & _ & -> & _)]]]];
    cbn [prr_out] in Hprr; try discriminate Hprr;
    rewrite Hrun in Hm; injection Hm as <- <-;
    injection Hprr as <-; apply Hcomb; exact Hb.
Qed.

(** The test configuration with [prob_f] set to 1.0. *)
Lemma X9_prob_f_one_witness :
  constructed Demo.sure_encoder /\
  prob_f_ (params_ Demo.sure_encoder) = Float32.one /\
  length (Demo.hmac Demo.secret Demo.foo) = 32%nat /\
  exists uniform,
    GetPrrMasks Demo.sure_encoder Demo.foo
    = Defined (Some (uniform, Z.ones 32)) /\
    forall (R : Type) (irr_rand : IrrRandInterface R) (rand rand' : R)
           (ok : bool) (written : Written) (prr : Bits),
      _EncodeInternal Demo.sure_encoder Demo.foo rand
      = Defined (ok, written, rand') ->
      prr_out written = Some prr -> prr = uniform.
Proof.
  do 3 (split; [reflexivity|]).
  apply (X9_prob_f_one Demo.sure_encoder Demo.foo); reflexivity.
Defined.

(** X10. With a [prob_f] below 1/128 the threshold is 0: no position is a
    noise position and the PRR is the Bloom filter itself. *)
Theorem X10_prob_f_below_resolution (enc : Encoder) (value : list byte) (q : Q) :
  constructed enc ->
  Float32.valid (prob_f_ (params_ enc)) = true ->
  Float32.to_Q (prob_f_ (params_ enc)) = Some q ->
  (q * 128 < 1)%Q ->
  length (hmac_func_ (deps_ enc) (client_secret_ (deps_ enc)) value) = 32%nat ->
  exists uniform,
    GetPrrMasks enc value = Defined (Some (uniform, 0)) /\
    forall (R : Type) (irr_rand : IrrRandInterface R) (rand rand' : R)
           (ok : bool) (written : Written),
      _EncodeInternal enc value rand = Defined (ok, written, rand') ->
      prr_out written = bloom_out written.
Proof.
  intros Hc Hv Hq Hsmall Hlen.
  destruct (constructed_prob_f enc q Hc Hv Hq) as [Hpos _].
  assert (Hfloor : Qfloor (q * 128) = 0).
  { apply Qfloor_below_one; [|exact Hsmall].
    apply Qmult_lt_0_compat; [exact Hpos|reflexivity]. }
  destruct (GetPrrMasks_ok enc value q Hc Hv Hq Hlen)
    as (uniform & f_mask & Hrun & Hbits).
  assert (Hf : f_mask = 0).
  { apply Z.bits_inj'. intros k Hk. destruct (Hbits k) as [_ ->].
    rewrite Hfloor, noise_bit_0, andb_false_r, Z.bits_0. reflexivity. }
  subst f_mask. exists uniform. split; [exact Hrun|].
  intros R irr_rand rand rand' ok written Hcall.
  assert (Hcomb : forall bloom,
            MakeBloomFilter enc value = Defined (Some bloom) ->
            PrrCombine bloom uniform 0 = bloom).
  { intros bloom Hb. apply Z.bits_inj'. intros k Hk.
    rewrite (PrrCombine_testbit enc value bloom uniform _ k Hc Hb Hrun).
    rewrite Z.bits_0. reflexivity. }
  destruct (_EncodeInternal_stages R irr_rand enc value rand rand' ok written
              Hc Hcall)
    as [(_ & _ & -> & _)
       |[(bloom & _ & _ & Hne & _)
        |[(bloom & u & f & _ & Hb & _ & Hm & _ & _ & -> & _)
         |[(bloom & u & f & p & _ & Hb & _ & Hm & _ & _ & _ & -> & _)
          |(bloom & u & f & p & q' & _ & Hb & _ & Hm & _ & _ & _ & -> & _)]]]];
    [reflexivity|contradiction|..];
    cbn [prr_out bloom_out];
    rewrite Hrun in Hm; injection Hm as <- <-;
    rewrite (Hcomb bloom Hb); reflexivity.
Qed.

(** A [prob_f] of 1/256 on the test configuration. *)
Lemma X10_prob_f_below_resolution_witness :
  constructed Demo.faint_encoder /\
  Float32.valid Demo.faint = true /\
  Float32.to_Q Demo.faint = Some (inject_Z 8388608 * 2 ^ (-31))%Q /\
  (inject_Z 8388608 * 2 ^ (-31) * 128 < 1)%Q /\
  length (Demo.hmac Demo.secret Demo.foo) = 32%nat /\
  exists uniform,
    GetPrrMasks Demo.faint_encoder Demo.foo = Defined (Some (uniform, 0)) /\
    forall (R : Type) (irr_rand : IrrRandInterface R) (rand rand' : R)
           (ok : bool) (written : Written),
      _EncodeInternal Demo.faint_encoder Demo.foo rand
      = Defined (ok, written, rand') ->
      prr_out written = bloom_out written.
Proof.
  do 5 (split; [reflexivity|]).
  apply (X10_prob_f_below_resolution Demo.faint_encoder Demo.foo
           (inject_Z 8388608 * 2 ^ (-31))%Q); reflexivity.
Defined.

(** X11. Raising [prob_f] only adds noise positions: for the same secret
    and value the uniform mask stays and the noise mask of the smaller
    [prob_f] is contained in that of the larger. *)
Theorem X11_noise_mask_monotone (enc : Encoder) (prob_f' : float)
    (value : list byte) (q q' : Q) :
  constructed enc ->
  constructed (with_prob_f enc prob_f') ->
  Float32.valid (prob_f_ (params_ enc)) = true ->
  Float32.valid prob_f' = true ->
  Float32.to_Q (prob_f_ (params_ enc)) = Some q ->
  Float32.to_Q prob_f' = Some q' ->
  (q <= q')%Q ->
  length (hmac_func_ (deps_ enc) (client_secret_ (deps_ enc)) value) = 32%nat ->
  exists uniform f_mask f_mask',
    GetPrrMasks enc value = Defined (Some (uniform, f_mask)) /\
    GetPrrMasks (with_prob_f enc prob_f') value
    = Defined (Some (uniform, f_mask')) /\
    Z.land f_mask f_mask' = f_mask.
Proof.
  intros Hc Hc' Hv Hv' Hq Hq' Hle Hlen.
  destruct (GetPrrMasks_ok enc value q Hc Hv Hq Hlen)
    as (u & f & Hrun & Hbits).
  destruct (GetPrrMasks_ok (with_prob_f enc prob_f') value q' Hc' Hv' Hq' Hlen)
    as (u' & f' & Hrun' & Hbits').
  change (hmac_func_ (deps_ (with_prob_f enc prob_f'))
            (client_secret_ (deps_ (with_prob_f enc prob_f'))) value)
    with (hmac_func_ (deps_ enc) (client_secret_ (deps_ enc)) value) in Hbits'.
  change (num_bits_ (params_ (with_prob_f enc prob_f')))
    with (num_bits_ (params_ enc)) in Hbits'.
  assert (Hu : u' = u).
  { apply Z.bits_inj'. intros k _.
    destruct (Hbits k) as [-> _]. destruct (Hbits' k) as [-> _]. reflexivity. }
  subst u'. exists u, f, f'. split; [exact Hrun|]. split; [exact Hrun'|].
  assert (Hth : Qfloor (q * 128) <= Qfloor (q' * 128)).
  { apply Qfloor_resp_le. apply Qmult_le_compat_r; [exact Hle|discriminate]. }
  apply Z.bits_inj'. intros k _. rewrite Z.land_spec.
  destruct (Hbits k) as [_ Hf]. destruct (Hbits' k) as [_ Hf'].
  destruct (Z.testbit f k) eqn:Hfk; [|reflexivity].
  rewrite Hf', andb_true_l. symmetry in Hf.
  apply andb_true_iff in Hf. destruct Hf as [-> Hn]. cbn [andb].
  exact (noise_bit_mono _ _ _ k Hth Hn).
Qed.

(** The test configuration at 0.25 and at 1.0. *)
Lemma X11_noise_mask_monotone_witness :
  constructed Demo.encoder /\
  constructed (with_prob_f Demo.encoder Float32.one) /\
  Float32.valid Demo.quarter = true /\
  Float32.valid Float32.one = true /\
  Float32.to_Q Demo.quarter = Some (inject_Z 8388608 * 2 ^ (-25))%Q /\
  Float32.to_Q Float32.one = Some (inject_Z 8388608 * 2 ^ (-23))%Q /\
  (inject_Z 8388608 * 2 ^ (-25) <= inject_Z 8388608 * 2 ^ (-23))%Q /\
  length (Demo.hmac Demo.secret Demo.foo) = 32%nat /\
  exists uniform f_mask f_mask',
    GetPrrMasks Demo.encoder Demo.foo = Defined (Some (uniform, f_mask)) /\
    GetPrrMasks (with_prob_f Demo.encoder Float32.one) Demo.foo
    = Defined (Some (uniform, f_mask')) /\
    Z.land f_mask f_mask' = f_mask.
Proof.
  do 6 (split; [reflexivity|]). split; [discriminate|].
  split; [reflexivity|].
  apply (X11_noise_mask_monotone Demo.encoder Float32.one Demo.foo
           (inject_Z 8388608 * 2 ^ (-25))%Q (inject_Z 8388608 * 2 ^ (-23))%Q);
    try reflexivity.
  discriminate.
Defined.

(** ** Whole calls *)

Lemma Encode_inv (R : Type) (irr_rand : IrrRandInterface R)
    (enc : Encoder) (value : list byte) (rand rand' : R)
    (ok : bool) (out : option Bits) :
  Encode enc value rand = Defined (ok, out, rand') ->
  exists written,
    _EncodeInternal enc value rand = Defined (ok, written, rand') /\
    out = irr_out written.
Proof.
  unfold Encode.
  destruct (_EncodeInternal enc value rand) as [[[ok' written] rand1]| |];
    cbn [mbind outcome_bind mret outcome_ret]; try discriminate.
  intros [= <- <- <-]. exists written. auto.
Qed.

Lemma prr_high_bits (enc : Encoder) (value : list byte)
    (bloom uniform f_mask : Bits) (k : Z) :
  constructed enc ->
  MakeBloomFilter enc value = Defined (Some bloom) ->
  GetPrrMasks enc value = Defined (Some (uniform, f_mask)) ->
  num_bits_ (params_ enc) <= k ->
  Z.testbit (PrrCombine bloom uniform f_mask) k = false.
Proof.
  intros Hc Hb Hm Hk.
  rewrite (PrrCombine_testbit enc value bloom uniform f_mask k Hc Hb Hm).
  assert (Hbk : Z.testbit bloom k = false).
  { apply not_true_false. intros H.
    apply (MakeBloomFilter_inv enc value bloom Hc Hb) in H. lia. }
  assert (Huk : Z.testbit uniform k = false).
  { apply not_true_false. intros H.
    apply (GetPrrMasks_inv enc value uniform f_mask Hc Hm) in H. lia. }
  rewrite Hbk, Huk. destruct (Z.testbit f_mask k); reflexivity.
Qed.

(** X12. [_EncodeInternal] writes each output as soon as its stage is done:
    a call that returns has left [bloom_out] unwritten exactly when the hash
    was short, [prr_out] unwritten exactly when the hash was short or the
    digest not 32 bytes long, and [irr_out] unwritten exactly when it
    returned [false].  A call that fails at a draw has thus written the Bloom
    filter and the PRR. *)
Theorem X12_outputs_by_stage (R : Type) (irr_rand : IrrRandInterface R)
    (enc : Encoder) (value : list byte) (rand rand' : R)
    (ok : bool) (written : Written) :
  constructed enc ->
  _EncodeInternal enc value rand = Defined (ok, written, rand') ->
  (bloom_out written = None <->
   Z.of_nat (length (hash_func_ (deps_ enc) (hash_input enc value)))
     < num_hashes_ (params_ enc)) /\
  (prr_out written = None <->
   Z.of_nat (length (hash_func_ (deps_ enc) (hash_input enc value)))
     < num_hashes_ (params_ enc) \/
   length (hmac_func_ (deps_ enc) (client_secret_ (deps_ enc)) value)
     <> 32%nat) /\
  (irr_out written = None <-> ok = false).
Proof.
  intros Hc Hcall.
  destruct (_EncodeInternal_stages R irr_rand enc value rand rand' ok written
              Hc Hcall)
    as [(Hs & -> & -> & _)
       |[(bloom & Hs & _ & Hl & -> & -> & _)
        |[(bloom & u & f & Hs & _ & Hl & _ & _ & -> & -> & _)
         |[(bloom & u & f & p & Hs & _ & Hl & _ & _ & _ & -> & -> & _)
          |(bloom & u & f & p & q & Hs & _ & Hl & _ & _ & _ & -> & -> & _)]]]];
    cbn [bloom_out prr_out irr_out];
    repeat split; try tauto; try discriminate; try lia;
    try (intros [H|H]; [lia|contradiction]).
Qed.

(** A call on the test configuration whose second draw fails: the Bloom
    filter and the PRR are written, the IRR is not. *)
Lemma X12_outputs_by_stage_witness :
  constructed Demo.encoder /\
  _EncodeInternal (irr_rand := Demo.scripted) Demo.encoder Demo.foo
    [Some 5; None]
  = Defined (false, mkWritten (Some 1) (Some 2130050) None, []) /\
  (Some 1 = None <->
   Z.of_nat (length (Demo.hash (hash_input Demo.encoder Demo.foo))) < 2) /\
  (Some 2130050 = None <->
   Z.of_nat (length (Demo.hash (hash_input Demo.encoder Demo.foo))) < 2 \/
   length (Demo.hmac Demo.secret Demo.foo) <> 32%nat) /\
  (@None Bits = None <-> false = false).
Proof.
  split; [reflexivity|]. split; [vm_compute; reflexivity|].
  apply (X12_outputs_by_stage _ Demo.scripted Demo.encoder Demo.foo
           [Some 5; None] [] false (mkWritten (Some 1) (Some 2130050) None));
    [reflexivity|vm_compute; reflexivity].
Defined.

(** X13. What a call of [Encode] takes from the randomness source: nothing
    when the hash was short or the digest not 32 bytes long, one draw when
    the first draw fails (the second is then not made), and two draws
    otherwise, also when the second fails. *)
Theorem X13_draws_consumed (R : Type) (irr_rand : IrrRandInterface R)
    (enc : Encoder) (value : list byte) (rand rand' : R)
    (ok : bool) (out : option Bits) :
  constructed enc ->
  Encode enc value rand = Defined (ok, out, rand') ->
  let first :=
    GetMask (prob_p_ (params_ enc)) (num_bits_ (params_ enc)) rand in
  let second :=
    GetMask (prob_q_ (params_ enc)) (num_bits_ (params_ enc)) first.2 in
  (Z.of_nat (length (hash_func_ (deps_ enc) (hash_input enc value)))
     < num_hashes_ (params_ enc) \/
   length (hmac_func_ (deps_ enc) (client_secret_ (deps_ enc)) value)
     <> 32%nat ->
   rand' = rand) /\
  (num_hashes_ (params_ enc)
     <= Z.of_nat (length (hash_func_ (deps_ enc) (hash_input enc value))) ->
   length (hmac_func_ (deps_ enc) (client_secret_ (deps_ enc)) value)
     = 32%nat ->
   (first.1 = None -> rand' = first.2) /\
   (first.1 <> None -> rand' = second.2)).
Proof.
  intros Hc Hcall first second.
  destruct (Encode_inv R irr_rand enc value rand rand' ok out Hcall)
    as (written & Hint & _).
  destruct (_EncodeInternal_stages R irr_rand enc value rand rand' ok written
              Hc Hint)
    as [(Hs & _ & _ & ->)
       |[(bloom & Hs & _ & Hl & _ & _ & ->)
        |[(bloom & u & f & Hs & _ & Hl & _ & Hp & _ & _ & ->)
         |[(bloom & u & f & p & Hs & _ & Hl & _ & Hp & _ & _ & _ & ->)
          |(bloom & u & f & p & q & Hs & _ & Hl & _ & Hp & _ & _ & _ & ->)]]]];
    fold first in Hp || idtac; fold first; fold second;
    (split; [intros [H|H]; try reflexivity; try lia; contradiction|]);
    intros H1 H2; try lia; try contradiction;
    (split; [intros H3|intros H3]); try reflexivity; try congruence.
Qed.

(** The call of X12's example: two draws are gone. *)
Lemma X13_draws_consumed_witness :
  constructed Demo.encoder /\
  Encode (irr_rand := Demo.scripted) Demo.encoder Demo.foo [Some 5; None]
  = Defined (false, None, []) /\
  (Z.of_nat (length (Demo.hash (hash_input Demo.encoder Demo.foo))) < 2 \/
   length (Demo.hmac Demo.secret Demo.foo) <> 32%nat ->
   @nil (option Bits) = [Some 5; None]) /\
  (2 <= Z.of_nat (length (Demo.hash (hash_input Demo.encoder Demo.foo))) ->
   length (Demo.hmac Demo.secret Demo.foo) = 32%nat ->
   ((Demo.scripted Demo.three_quarters 32 [Some 5; None]).1 = None ->
    [] = (Demo.scripted Demo.three_quarters 32 [Some 5; None]).2) /\
   ((Demo.scripted Demo.three_quarters 32 [Some 5; None]).1 <> None ->
    [] = (Demo.scripted Demo.half 32
            (Demo.scripted Demo.three_quarters 32 [Some 5; None]).2).2)).
Proof.
  split; [reflexivity|]. split; [vm_compute; reflexivity|].
  apply (X13_draws_consumed _ Demo.scripted Demo.encoder Demo.foo
           [Some 5; None] [] false None);
    [reflexivity|vm_compute; reflexivity].
Defined.

(** ** The IRR *)

Lemma IrrCombine_testbit (prr p_bits q_bits : Bits) (k : Z) :
  0 <= k < 32 ->
  Z.testbit (IrrCombine prr p_bits q_bits) k
  = if Z.testbit prr k then Z.testbit q_bits k else Z.testbit p_bits k.
Proof.
  intros Hk. unfold IrrCombine.
  rewrite Z.lor_spec, !Z.land_spec, Bits_not_testbit by lia.
  destruct (Z.testbit prr k), (Z.testbit q_bits k), (Z.testbit p_bits k);
    reflexivity.
Qed.

(** X14. [_EncodeInternal] does not cut the drawn masks to [num_bits]: at
    every position from [num_bits] up to 31 the IRR carries the bit of
    [p_bits], whatever the value encoded. *)
Theorem X14_irr_above_num_bits (R : Type) (irr_rand : IrrRandInterface R)
    (enc : Encoder) (value : list byte) (rand rand' : R) (out : option Bits) :
  constructed enc ->
  Encode enc value rand = Defined (true, out, rand') ->
  exists irr p_bits,
    out = Some irr /\
    (GetMask (prob_p_ (params_ enc)) (num_bits_ (params_ enc)) rand).1
    = Some p_bits /\
    forall i, num_bits_ (params_ enc) <= i < 32 ->
              Z.testbit irr i = Z.testbit p_bits i.
Proof.
  intros Hc Hcall.
  destruct (Encode_inv R irr_rand enc value rand rand' true out Hcall)
    as (written & Hint & ->).
  destruct (_EncodeInternal_stages R irr_rand enc value rand rand' true written
              Hc Hint)
    as [(_ & Hok & _)
       |[(bloom & _ & _ & _ & Hok & _)
        |[(bloom & u & f & _ & _ & _ & _ & _ & Hok & _)
         |[(bloom & u & f & p & _ & _ & _ & _ & _ & _ & Hok & _)
          |(bloom & u & f & p & q & _ & Hb & _ & Hm & Hp & _ & _ & -> & _)]]]];
    try discriminate Hok.
  exists (IrrCombine (PrrCombine bloom u f) p q), p.
  split; [reflexivity|]. split; [exact Hp|].
  intros i Hi. pose proof (constructed_inv enc Hc) as (Hnb & _).
  rewrite IrrCombine_testbit by lia.
  rewrite (prr_high_bits enc value bloom u f i Hc Hb Hm) by lia. reflexivity.
Qed.

(** An encoder of 8 bits and a source that answers with 32 bits set: bits
    8 to 31 of the output are set. *)
Lemma X14_irr_above_num_bits_witness :
  constructed Demo.byte_encoder /\
  Encode (irr_rand := Demo.scripted) Demo.byte_encoder Demo.foo
    [Some 4294967295; Some 0]
  = Defined (true, Some 4294967165, []) /\
  exists irr p_bits,
    Some 4294967165 = Some irr /\
    (Demo.scripted Demo.three_quarters 8 [Some 4294967295; Some 0]).1
    = Some p_bits /\
    forall i, 8 <= i < 32 -> Z.testbit irr i = Z.testbit p_bits i.
Proof.
  split; [reflexivity|]. split; [vm_compute; reflexivity|].
  apply (X14_irr_above_num_bits _ Demo.scripted Demo.byte_encoder Demo.foo
           [Some 4294967295; Some 0] [] (Some 4294967165));
    [reflexivity|vm_compute; reflexivity].
Defined.

(** X15. Three extreme pairs of draws.  With an all-zero [p_bits] and a
    [q_bits] of [num_bits] ones the IRR is the PRR; with the two exchanged
    it is the complement of the PRR on [num_bits] bits; with [p_bits] and
    [q_bits] equal it is that mask, and nothing of the PRR is left. *)
Theorem X15_irr_extremes (R : Type) (irr_rand : IrrRandInterface R)
    (enc : Encoder) (value : list byte) (rand rand' : R) (written : Written)
    (p_bits q_bits : Bits) :
  constructed enc ->
  _EncodeInternal enc value rand = Defined (true, written, rand') ->
  (GetMask (prob_p_ (params_ enc)) (num_bits_ (params_ enc)) rand).1
  = Some p_bits ->
  (GetMask (prob_q_ (params_ enc)) (num_bits_ (params_ enc))
     (GetMask (prob_p_ (params_ enc)) (num_bits_ (params_ enc)) rand).2).1
  = Some q_bits ->
  exists prr,
    prr_out written = Some prr /\
    (p_bits = 0 -> q_bits = Z.ones (num_bits_ (params_ enc)) ->
     irr_out written = Some prr) /\
    (p_bits = Z.ones (num_bits_ (params_ enc)) -> q_bits = 0 ->
     irr_out written
     = Some (Z.lxor prr (Z.ones (num_bits_ (params_ enc))))) /\
    (p_bits = q_bits -> 0 <= p_bits < 2 ^ 32 ->
     irr_out written = Some p_bits).
Proof.
  intros Hc Hint Hp Hq.
  pose proof (constructed_inv enc Hc) as (Hnb & _).
  destruct (_EncodeInternal_stages R irr_rand enc value rand rand' true written
              Hc Hint)
    as [(_ & Hok & _)
       |[(bloom & _ & _ & _ & Hok & _)
        |[(bloom & u & f & _ & _ & _ & _ & _ & Hok & _)
         |[(bloom & u & f & p & _ & _ & _ & _ & _ & _ & Hok & _)
          |(bloom & u & f & p & q & _ & Hb & _ & Hm & Hp' & Hq' & _ & -> & _)]]]];
    try discriminate Hok.
  rewrite Hp in Hp'. injection Hp' as <-.
  rewrite Hq in Hq'. injection Hq' as <-.
  set (prr := PrrCombine bloom u f).
  assert (Hhigh : forall k, num_bits_ (params_ enc) <= k ->
                            Z.testbit prr k = false)
    by (intros k Hk; apply (prr_high_bits enc value bloom u f k Hc Hb Hm Hk)).
  exists prr. cbn [prr_out irr_out]. split; [reflexivity|].
  split; [|split].
  - intros -> ->. f_equal. apply Z.bits_inj'. intros k Hk.
    unfold IrrCombine. rewrite Z.lor_spec, !Z.land_spec, Z.bits_0.
    rewrite Z.testbit_ones_nonneg by lia. cbn [andb orb].
    destruct (Z.ltb_spec k (num_bits_ (params_ enc))) as [Hlt|Hge];
      [reflexivity|]. rewrite Hhigh by lia. reflexivity.
  - intros -> ->. f_equal. apply Z.bits_inj'. intros k Hk.
    rewrite Z.lxor_spec, Z.testbit_ones_nonneg by lia.
    destruct (Z.ltb_spec k 32) as [Hlt|Hge].
    + rewrite IrrCombine_testbit by lia.
      rewrite Z.bits_0, Z.testbit_ones_nonneg by lia.
      destruct (Z.ltb_spec k (num_bits_ (params_ enc))) as [Hlt'|Hge'].
      * destruct (Z.testbit prr k); reflexivity.
      * rewrite Hhigh by lia. reflexivity.
    + unfold IrrCombine. rewrite Z.lor_spec, !Z.land_spec, Z.bits_0.
      rewrite Z.testbit_ones_nonneg by lia.
      destruct (Z.ltb_spec k (num_bits_ (params_ enc))) as [Hlt'|Hge'];
        [lia|]. rewrite Hhigh by lia. reflexivity.
  - intros <- Hr. f_equal. apply Z.bits_inj'. intros k Hk.
    destruct (Z.ltb_spec k 32) as [Hlt|Hge].
    + rewrite IrrCombine_testbit by lia.
      destruct (Z.testbit prr k); reflexivity.
    + unfold IrrCombine. rewrite Z.lor_spec, !Z.land_spec.
      assert (Hpk : Z.testbit p_bits k = false).
      { rewrite <- (Z.mod_small p_bits (2 ^ 32)) by exact Hr.
        apply Z.mod_pow2_bits_high. lia. }
      rewrite Hpk. reflexivity.
Qed.

(** The call of the test configuration with an all-zero [p_bits] and an
    all-one [q_bits]. *)
Lemma X15_irr_extremes_witness :
  constructed Demo.encoder /\
  _EncodeInternal (irr_rand := Demo.scripted) Demo.encoder Demo.foo
    [Some 0; Some 4294967295]
  = Defined (true, mkWritten (Some 1) (Some 2130050) (Some 2130050), []) /\
  (Demo.scripted Demo.three_quarters 32 [Some 0; Some 4294967295]).1
  = Some 0 /\
  (Demo.scripted Demo.half 32
     (Demo.scripted Demo.three_quarters 32 [Some 0; Some 4294967295]).2).1
  = Some 4294967295 /\
  exists prr,
    Some 2130050 = Some prr /\
    (0 = 0 -> 4294967295 = Z.ones 32 -> Some 2130050 = Some prr) /\
    (0 = Z.ones 32 -> 4294967295 = 0 ->
     Some 2130050 = Some (Z.lxor prr (Z.ones 32))) /\
    (0 = 4294967295 -> 0 <= 0 < 2 ^ 32 -> Some 2130050 = Some 0).
Proof.
  split; [reflexivity|]. split; [vm_compute; reflexivity|].
  do 2 (split; [reflexivity|]).
  apply (X15_irr_extremes _ Demo.scripted Demo.encoder Demo.foo
           [Some 0; Some 4294967295] []
           (mkWritten (Some 1) (Some 2130050) (Some 2130050)) 0 4294967295);
    [reflexivity|vm_compute; reflexivity|reflexivity|reflexivity].
Defined.

(** ** Debug output *)

Lemma foldl_lookup_seq {A B : Type} (f : B -> A -> A) (h : list B) :
  forall (front : list B) (acc : A),
    foldl (fun acc i =>
             match (front ++ h) !! i with
             | Some b => f b acc
             | None => acc
             end)
          acc (seq (length front) (length h))
    = foldl (fun acc b => f b acc) acc h.
Proof.
  induction h as [|b h IH]; intros front acc; [reflexivity|].
  cbn [length seq foldl].
  rewrite (list_lookup_middle front h b (length front) eq_refl).
  specialize (IH (front ++ [b]) (f b acc)).
  rewrite <- app_assoc, length_app in IH. cbn [app length] in IH.
  rewrite Nat.add_1_r in IH. exact IH.
Qed.

Lemma hex_digits_of_byte (b : byte) :
  hex_value (hex_digit (uint8_val b / 16)) = Some (uint8_val b / 16) /\
  hex_value (hex_digit (uint8_val b mod 16)) = Some (uint8_val b mod 16).
Proof. destruct b; vm_compute; split; reflexivity. Qed.

Lemma parse_hex_byte (b : byte) (rest : list byte) :
  parse_hex (hex_digit (uint8_val b / 16) :: hex_digit (uint8_val b mod 16)
               :: rest)
  = match parse_hex rest with
    | Some bytes => Some (b :: bytes)
    | None => None
    end.
Proof.
  destruct (hex_digits_of_byte b) as [Hhi Hlo].
  cbn [parse_hex]. rewrite Hhi, Hlo.
  destruct (parse_hex rest); [|reflexivity].
  rewrite <- Z.div_mod by lia. rewrite to_uint8_uint8_val. reflexivity.
Qed.

(** X16. [PrintHex] appends to [stderr] two lower-case hexadecimal digits
    for each byte, in order, and a newline (the newline alone for an empty
    vector); reading the digits back gives the bytes printed. *)
Theorem X16_PrintHex_round_trip (h : list byte) (stderr : list byte) :
  exists line,
    PrintHex h stderr = stderr ++ line ++ [x0a] /\
    length line = (2 * length h)%nat /\
    parse_hex line = Some h /\
    hex_value x0a = None.
Proof.
  unfold PrintHex.
  pose proof (foldl_lookup_seq fprintf_02x h [] stderr) as Hfold.
  cbn [app length] in Hfold. rewrite Hfold. clear Hfold.
  revert stderr. induction h as [|b h IH]; intros stderr.
  - exists []. repeat split.
  - cbn [foldl]. destruct (IH (fprintf_02x b stderr)) as (line & Hp & Hl & Hr & Hn).
    exists (hex_digit (uint8_val b / 16) :: hex_digit (uint8_val b mod 16)
              :: line).
    split; [|split; [|split]].
    + rewrite Hp. unfold fprintf_02x. rewrite <- !app_assoc. reflexivity.
    + cbn [length]. rewrite Hl. lia.
    + rewrite parse_hex_byte, Hr. reflexivity.
    + exact Hn.
Qed.

(** ** The byte layout of the unit test *)

Lemma to_uint8_mod (z : Z) : to_uint8 (z mod 256) = to_uint8 z.
Proof. unfold to_uint8. rewrite Z.mod_mod by lia. reflexivity. Qed.

Lemma masked_byte (x s : Z) :
  0 <= s ->
  to_uint8 (Z.shiftr (Z.land x (Z.shiftl 255 s)) s) = to_uint8 (Z.shiftr x s).
Proof.
  intros Hs. rewrite <- to_uint8_mod, <- (to_uint8_mod (Z.shiftr x s)).
  f_equal. change 256 with (2 ^ 8). rewrite <- !Z.land_ones by lia.
  apply Z.bits_inj'. intros k Hk.
  rewrite !Z.land_spec, !Z.shiftr_spec, Z.land_spec, Z.shiftl_spec by lia.
  replace (k + s - s) with k by lia.
  change 255 with (Z.ones 8).
  destruct (Z.testbit (Z.ones 8) k); [|rewrite !andb_false_r; reflexivity].
  rewrite !andb_true_r. reflexivity.
Qed.

(** X17. The four bytes the test [StringUint32AndStringVectorMatch] takes
    from a [Bits] value are its big-endian encoding: they give the value
    back, and every four bytes are the bytes of the number they stand
    for. *)
Theorem X17_expected_out_round_trip :
  (forall bits_out : Bits, expected_out bits_out = big_endian4 bits_out) /\
  (forall bits_out : Bits,
      0 <= bits_out < 2 ^ 32 ->
      bytes_to_bits (expected_out bits_out) = bits_out) /\
  (forall b0 b1 b2 b3 : byte,
      expected_out (bytes_to_bits [b0; b1; b2; b3]) = [b0; b1; b2; b3]).
Proof.
  assert (Hbe : forall bits_out : Bits,
             expected_out bits_out = big_endian4 bits_out).
  { intros x. unfold expected_out, big_endian4.
    change 4278190080 with (Z.shiftl 255 24).
    change 16711680 with (Z.shiftl 255 16).
    change 65280 with (Z.shiftl 255 8).
    rewrite !masked_byte by lia.
    rewrite land_255, to_uint8_mod. reflexivity. }
  split; [exact Hbe|]. split.
  - intros x Hx. rewrite Hbe. unfold big_endian4, bytes_to_bits.
    cbn [foldl]. rewrite !uint8_val_to_uint8, !Z.shiftr_div_pow2 by lia.
    change (2 ^ 24) with 16777216. change (2 ^ 16) with 65536.
    change (2 ^ 8) with 256. change (2 ^ 32) with 4294967296 in Hx.
    Z.div_mod_to_equations. lia.
  - intros b0 b1 b2 b3. rewrite Hbe. unfold big_endian4, bytes_to_bits.
    cbn [foldl].
    pose proof (uint8_val_range b0) as H0.
    pose proof (uint8_val_range b1) as H1.
    pose proof (uint8_val_range b2) as H2.
    pose proof (uint8_val_range b3) as H3.
    set (x := (((0 * 256 + uint8_val b0) * 256 + uint8_val b1) * 256
               + uint8_val b2) * 256 + uint8_val b3).
    rewrite <- (to_uint8_mod (Z.shiftr x 24)), <- (to_uint8_mod (Z.shiftr x 16)),
      <- (to_uint8_mod (Z.shiftr x 8)), <- (to_uint8_mod x).
    rewrite !Z.shiftr_div_pow2 by lia.
    change (2 ^ 24) with 16777216. change (2 ^ 16) with 65536.
    change (2 ^ 8) with 256.
    assert (E0 : (x / 16777216) mod 256 = uint8_val b0)
      by (subst x; Z.div_mod_to_equations; lia).
    assert (E1 : (x / 65536) mod 256 = uint8_val b1)
      by (subst x; Z.div_mod_to_equations; lia).
    assert (E2 : (x / 256) mod 256 = uint8_val b2)
      by (subst x; Z.div_mod_to_equations; lia).
    assert (E3 : x mod 256 = uint8_val b3)
      by (subst x; Z.div_mod_to_equations; lia).
    rewrite E0, E1, E2, E3, !to_uint8_uint8_val. reflexivity.
Qed.

(** The vector 2281639167 of the unit test: its bytes are 135, 255, 12,
    255. *)
Lemma X17_expected_out_round_trip_witness :
  0 <= 2281639167 < 2 ^ 32 /\
  expected_out 2281639167 = [x87; xff; x0c; xff] /\
  bytes_to_bits (expected_out 2281639167) = 2281639167.
Proof.
  split; [lia|]. split; [reflexivity|].
  apply (proj1 (proj2 X17_expected_out_round_trip) 2281639167). lia.
Defined.
